(** * kittenreaper.py: a shallow embedding and its verified properties

    The development follows the layout of [kittenreaper.py]:
    - Python [str] helpers used by the script ([in], [split], [strip],
      iteration over the lines of a file);
    - the candidate filter loop of [__main__];
    - [checkKitten], the per-host reboot procedure, and one iteration of
      the worker loop [processKittens];
    - [datetime] values with [strftime]/[strptime] for the format
      ['%Y-%m-%dT%H:%M:%S'], and [loadCache]/[writeCache].

    Definitions come first, theorems afterwards. *)

From Stdlib Require Import ZArith Lia Ascii.
From stdpp Require Import base option list gmap strings fin_maps.

Local Open Scope Z_scope.

(** [lia] also decides goals with division and remainder by a literal. *)
Ltac Zify.zify_post_hook ::= Z.to_euclidean_division_equations.

(* ===================================================================== *)
(** * Python [str] helpers *)
(* ===================================================================== *)

Definition newline : ascii := "010"%char.
Definition space : ascii := " "%char.
Definition comma : ascii := ","%char.

(** [s.startswith(p)] *)
Fixpoint startswith (p s : string) : bool :=
  match p, s with
  | EmptyString, _ => true
  | String _ _, EmptyString => false
  | String a p', String b s' => if Ascii.eqb a b then startswith p' s' else false
  end.

(** [sub in s] on [str]: [sub] occurs somewhere in [s]. *)
Fixpoint str_in (sub s : string) : bool :=
  startswith sub s ||
  match s with
  | EmptyString => false
  | String _ s' => str_in sub s'
  end.

(** [c in s] for a single character, used in side conditions. *)
Fixpoint has_char (c : ascii) (s : string) : bool :=
  match s with
  | EmptyString => false
  | String a s' => Ascii.eqb a c || has_char c s'
  end.

(** [s.split(sep)] for a one-character separator: every occurrence of
    [sep] cuts, so the result has one piece more than [s] has separators
    and is never empty. *)
Fixpoint split (sep : ascii) (s : string) : list string :=
  match s with
  | EmptyString => [EmptyString]
  | String a s' =>
      if Ascii.eqb a sep then EmptyString :: split sep s'
      else match split sep s' with
           | [] => [String a EmptyString]
           | p :: ps => String a p :: ps
           end
  end.

(** Python's [str.isspace] on one character of a byte string. *)
Definition isspace (c : ascii) : bool := Ascii.is_space c.

Fixpoint lstrip (s : string) : string :=
  match s with
  | EmptyString => EmptyString
  | String a s' => if isspace a then lstrip s' else s
  end.

Fixpoint rstrip (s : string) : string :=
  match s with
  | EmptyString => EmptyString
  | String a s' =>
      match rstrip s' with
      | EmptyString => if isspace a then EmptyString else String a EmptyString
      | r => String a r
      end
  end.

(** [s.strip()] *)
Definition strip (s : string) : string := rstrip (lstrip s).

(** Iterating over an open text file, and [readlines()]: the lines of the
    content, each with its terminating newline (the last one may lack it). *)
Fixpoint readlines (content : string) : list string :=
  match content with
  | EmptyString => []
  | String a rest =>
      if Ascii.eqb a newline then String a EmptyString :: readlines rest
      else match readlines rest with
           | [] => [String a EmptyString]
           | l :: ls => String a l :: ls
           end
  end.

(** The digits [0-9] at the front of [s], and what follows them: what a
    greedy [\d+] or [\d*] of a pattern consumes. *)
Fixpoint span_digits (s : string) : string * string :=
  match s with
  | EmptyString => (EmptyString, EmptyString)
  | String a s' =>
      match Ascii.is_nat a with
      | Some _ => let '(ds, rest) := span_digits s' in (String a ds, rest)
      | None => (EmptyString, s)
      end
  end.

(** What is left of [s] after the literal [p], if [s] starts with it. *)
Fixpoint after_literal (p s : string) : option string :=
  match p, s with
  | EmptyString, _ => Some s
  | String _ _, EmptyString => None
  | String a p', String b s' =>
      if Ascii.eqb a b then after_literal p' s' else None
  end.

(** One [.] of a pattern: any character but a newline. *)
Definition after_dot (s : string) : option string :=
  match s with
  | EmptyString => None
  | String a s' => if Ascii.eqb a newline then None else Some s'
  end.

(** The text of [s] before the first occurrence of [c] (all of [s] when
    there is none). Used to state what [split] returns first. *)
Fixpoint before_first (c : ascii) (s : string) : string :=
  match s with
  | EmptyString => EmptyString
  | String a s' => if Ascii.eqb a c then EmptyString else String a (before_first c s')
  end.

(** No character of [s] is white space. *)
Fixpoint no_white (s : string) : bool :=
  match s with
  | EmptyString => true
  | String a s' => negb (isspace a) && no_white s'
  end.

(** [''.join(parts)] *)
Definition concat_str (parts : list string) : string :=
  foldr String.app EmptyString parts.

(* ===================================================================== *)
(** * Exceptions and log records *)
(* ===================================================================== *)

Inductive Exception : Type :=
  | KeyError (key : string)
  | ValueError (what : string).

(** Result of code that may raise. *)
Inductive Exc (A : Type) : Type :=
  | Ok (a : A)
  | Raise (e : Exception).
Arguments Ok {A} a.
Arguments Raise {A} e.

Definition exc_bind {A B} (m : Exc A) (k : A → Exc B) : Exc B :=
  match m with
  | Ok a => k a
  | Raise e => Raise e
  end.

Inductive LogEntry : Type :=
  | Info (msg : string)
  | Error (msg : string).

(* ===================================================================== *)
(** * Options ([_defaultOptions]) *)
(* ===================================================================== *)

Module options.
Record t : Type := mk {
  config : option string;
  debug : bool;
  background : bool;
  logpath : option string;
  kittens : option string;
  filter : option string;
  class : option string;
  workers : Z;
  dryrun : bool;
  filterbase : string;
  username : string;
  password : option string;
  cachefile : option string;
  force : bool
}.

(** The defaults of [_defaultOptions]. *)
Definition default : t :=
  {| config := None; debug := true; background := false; logpath := None;
     kittens := None; filter := None; class := None; workers := 4;
     dryrun := false; filterbase := "^%s"; username := "cltbld";
     password := None; cachefile := None; force := false |}.

(** The same configuration with another value of [--class]. *)
Definition with_class (c : option string) (o : t) : t :=
  {| config := config o; debug := debug o; background := background o;
     logpath := logpath o; kittens := kittens o; filter := filter o;
     class := c; workers := workers o; dryrun := dryrun o;
     filterbase := filterbase o; username := username o;
     password := password o; cachefile := cachefile o; force := force o |}.
End options.

(* ===================================================================== *)
(** * The candidate filter loop of [__main__] (lines 165-168, 175-180, 209-236) *)
(* ===================================================================== *)

(** One entry of the slavealloc list after line 178-179 replaced a [None]
    note by the empty string. *)
Record Slave : Type := { enabled : bool; notes : string }.

(** An item of the JSON list as fetched: [notes] may be [None]. *)
Record SlaveItem : Type :=
  { item_name : string; item_enabled : bool; item_notes : option string }.

(** Lines 175-180: [slaves[item['name']] = item], a later item of the same
    name overwriting an earlier one. *)
Definition build_slaves (slavelist : list SlaveItem) : gmap string Slave :=
  foldl (λ slaves item,
           <[item_name item :=
               {| enabled := item_enabled item;
                  notes := default EmptyString (item_notes item) |}]> slaves)
        ∅ slavelist.

(** A compiled pattern is used through [search] only: [Some true] for a
    match object, [Some false] for [None], and [None] when the call raises
    (the bare [except] of line 218 catches that). *)
Definition Pattern : Type := string → option bool.

(** The state the loop works on: the work queue, the list [results] of
    outstanding jobs, and what was logged. *)
Record MainState : Type := {
  workQueue : list string;
  results : list string;
  logged : list LogEntry
}.

Definition initial_state : MainState :=
  {| workQueue := []; results := []; logged := [] |}.

Definition log_entry (e : LogEntry) (st : MainState) : MainState :=
  {| workQueue := workQueue st; results := results st;
     logged := logged st ++ [e] |}.

(** Lines 235-236: [workQueue.put(kitten); results.append(kitten)]. *)
Definition enqueue (kitten : string) (st : MainState) : MainState :=
  {| workQueue := workQueue st ++ [kitten];
     results := results st ++ [kitten];
     logged := logged st |}.

(** Lines 211-214: the identifier of a candidate line. *)
Definition extract_kitten (item : string) : option string :=
  if str_in "," item then split comma item !! 0%nat else Some item.

(** Lines 210-220, the [try] block: the identifier, or [None] when the
    pattern rejects it or when anything in the block raised. *)
Definition parse_item (reFilter : option Pattern) (item : string)
    (st : MainState) : option string * MainState :=
  let failed :=
    (None, log_entry (Error ("unable to parse line [" +:+ item +:+ "]")) st) in
  match extract_kitten item with
  | None => failed
  | Some kitten =>
      match reFilter with
      | None => (Some kitten, st)
      | Some search =>
          match search kitten with
          | Some true => (Some kitten, st)
          | Some false => (None, st)
          | None => failed
          end
      end
  end.

(** [slaves[kitten]]: a missing key raises [KeyError]. *)
Definition getitem {V} (d : gmap string V) (key : string) : Exc V :=
  match d !! key with
  | Some v => Ok v
  | None => Raise (KeyError key)
  end.

(** [kitten in seenCache] *)
Definition in_dict {V} (key : string) (d : gmap string V) : bool :=
  bool_decide (is_Some (d !! key)).

(** Lines 222-236 for one identifier that came out of the [try] block. *)
Definition dispatch_kitten {V} (slaves : gmap string Slave)
    (seenCache : gmap string V) (force : bool) (kitten : string)
    (st : MainState) : Exc MainState :=
  exc_bind (getitem slaves kitten) (λ slave,
  if negb (enabled slave) then
    Ok (log_entry (Info (kitten +:+ " is not enabled, skipping")) st)
  else if bool_decide (0 < Z.of_nat (String.length (notes slave))) then
    Ok (log_entry (Info (kitten +:+ " has a notes field, skipping")) st)
  else if in_dict kitten seenCache then
    if force then
      Ok (enqueue kitten
            (log_entry (Info (kitten +:+
               " has been processed withint the last hour but is being --force'd"))
               st))
    else
      Ok (log_entry (Info (kitten +:+
            " has been processed within the last hour, skipping")) st)
  else Ok (enqueue kitten st)).

(** The body of the [for item in kittens] loop. *)
Definition filter_item {V} (slaves : gmap string Slave)
    (seenCache : gmap string V) (reFilter : option Pattern) (force : bool)
    (item : string) (st : MainState) : Exc MainState :=
  match parse_item reFilter item st with
  | (Some kitten, st') => dispatch_kitten slaves seenCache force kitten st'
  | (None, st') => Ok st'
  end.

(** The loop itself. An exception leaves the loop at once; the state at
    that moment is returned with it (what was put on the work queue before
    stays there). *)
Fixpoint filter_loop {V} (slaves : gmap string Slave)
    (seenCache : gmap string V) (reFilter : option Pattern) (force : bool)
    (items : list string) (st : MainState) : MainState * option Exception :=
  match items with
  | [] => (st, None)
  | item :: rest =>
      match filter_item slaves seenCache reFilter force item st with
      | Ok st' => filter_loop slaves seenCache reFilter force rest st'
      | Raise e => (st, Some e)
      end
  end.

Section Main.
(** [re.compile(pattern).search] and [fmt % arg] are library calls, taken
    as given. *)
Variable re_compile : string → Pattern.
Variable percent : string → string → string.

(** Lines 165-168. *)
Definition make_reFilter (o : options.t) : option Pattern :=
  match options.filter o with
  | Some f => Some (re_compile (percent (options.filterbase o) f))
  | None => None
  end.

(** Lines 165-168 and 209-236: from the options, the inventory, the seen
    cache and the candidate lines to the jobs put on the work queue. *)
Definition main_filter {V} (o : options.t) (slaves : gmap string Slave)
    (seenCache : gmap string V) (kittens : list string)
    : MainState * option Exception :=
  filter_loop slaves seenCache (make_reFilter o) (options.force o)
              kittens initial_state.
End Main.

(* ===================================================================== *)
(** * [checkKitten] (lines 70-118) and the worker loop (lines 120-129) *)
(* ===================================================================== *)

(** What a worker does that can be observed from outside, in the order it
    happens: log records, the calls on the remote slave, and sleeps. *)
Inductive Event : Type :=
  | EvLog (fmt : string) (args : list string)
  | EvConnect (hostname username : string) (password : option string)
  | EvReboot
  | EvWait
  | EvFindTacfiles
  | EvTail (n : Z)
  | EvGracefulShutdown
  | EvSleep (seconds : Z).

Global Instance Event_eq_dec : EqDecision Event.
Proof. solve_decision. Defined.

(** The remote side ([releng.remote]) is not part of this file. Its answers
    are taken as arbitrary functions of everything that happened before
    the call. *)
Record Remote : Type := {
  slave_present : list Event → bool;        (* [sc.slave is not None] *)
  tacfiles_found : list Event → list string;
  log_tail : list Event → Z → string;
  shutdown_accepted : list Event → bool
}.

(** Computations that extend the trace of events. *)
Definition M (A : Type) : Type := list Event → A * list Event.

Definition ret {A} (a : A) : M A := λ tr, (a, tr).

Definition bind {A B} (m : M A) (k : A → M B) : M B :=
  λ tr, let '(a, tr') := m tr in k a tr'.

Notation "'do' x <- m ; k" := (bind m (λ x, k))
  (at level 10, x name, m at level 100, k at level 200,
   format "'[v' 'do'  x  <-  m ;  '/' k ']'").
Notation "m ;; k" := (bind m (λ _, k))
  (at level 100, k at level 200, right associativity).

Definition emit (e : Event) : M unit := λ tr, (tt, tr ++ [e]).

Definition log_info (fmt : string) (args : list string) : M unit :=
  emit (EvLog fmt args).

Definition sleep (seconds : Z) : M unit := emit (EvSleep seconds).

Section RemoteSlave.
Variable remote : Remote.

(** [releng.remote.RemoteSlave(hostname, username, password)]; the result
    tells whether [sc.slave] is there. *)
Definition RemoteSlave (hostname username : string)
    (password : option string) : M bool :=
  λ tr, (slave_present remote tr,
         tr ++ [EvConnect hostname username password]).

Definition reboot : M unit := emit EvReboot.
Definition wait : M unit := emit EvWait.

Definition find_buildbot_tacfiles : M (list string) :=
  λ tr, (tacfiles_found remote tr, tr ++ [EvFindTacfiles]).

Definition tail_twistd_log (n : Z) : M string :=
  λ tr, (log_tail remote tr n, tr ++ [EvTail n]).

Definition graceful_shutdown : M bool :=
  λ tr, (shutdown_accepted remote tr, tr ++ [EvGracefulShutdown]).

(** Line 114: [not data or "Main loop terminated" in data or
    "ProcessExitedAlready" in data]. *)
Definition shutdown_seen (data : string) : bool :=
  bool_decide (data = EmptyString)
  || str_in "Main loop terminated" data
  || str_in "ProcessExitedAlready" data.

(** How one pass through the body of [while True] ends. *)
Inductive LoopCtl : Type :=
  | Continue (count : Z)
  | Break.

(** Lines 105-118: the body of the loop, from the value of [count] on
    entry. *)
Definition poll_body (count : Z) : M LoopCtl :=
  let count := count + 1 in
  if bool_decide (30 ≤ count) then
    log_info "Took too long to shut down; giving up" [] ;;
    do data <- tail_twistd_log 10 ;
    (if bool_decide (data = EmptyString) then ret tt
     else log_info "last 10 lines are: %s" [data]) ;;
    ret Break
  else
    do data <- tail_twistd_log 5 ;
    if shutdown_seen data then
      log_info "Rebooting!" [] ;;
      reboot ;;
      ret Break
    else
      sleep 5 ;;
      ret (Continue count).

(** Lines 104-118: [while True]. [fuel] bounds the number of passes the
    model makes; [None] means the bound was hit before a [break]. *)
Fixpoint poll_loop (fuel : nat) (count : Z) : M (option unit) :=
  match fuel with
  | O => ret None
  | S fuel' =>
      do ctl <- poll_body count ;
      match ctl with
      | Break => ret (Some tt)
      | Continue count' => poll_loop fuel' count'
      end
  end.

(** Line 85: [re.match("^buildbot.tac.bug(\d+)$", tac)], giving
    [m.group(1)]. [$] matches at the end and before a final newline. *)
Definition match_bug_tac (tac : string) : option string :=
  s1 ← after_literal "buildbot" tac;
  s2 ← after_dot s1;
  s3 ← after_literal "tac" s2;
  s4 ← after_dot s3;
  s5 ← after_literal "bug" s4;
  let '(digits, rest) := span_digits s5 in
  if bool_decide (digits = EmptyString) then None
  else if bool_decide (rest = EmptyString ∨ rest = String newline EmptyString)
       then Some digits
       else None.

(** Lines 84-90: the first tac file that names a bug, if any. *)
Fixpoint disabled_by_bug (tacfiles : list string) : option string :=
  match tacfiles with
  | [] => None
  | tac :: rest =>
      match match_bug_tac tac with
      | Some bug => Some bug
      | None => disabled_by_bug rest
      end
  end.

(** Lines 70-118. Every [return] and the end of the function give
    [Some tt]; [None] only comes from the loop running out of [fuel]. *)
Definition checkKitten (fuel : nat) (hostname : string) (o : options.t)
    : M (option unit) :=
  log_info "checking kitten %s" [hostname] ;;
  if negb (options.dryrun o) then
    do present <- RemoteSlave hostname (options.username o)
                              (options.password o) ;
    if present then
      (if str_in "tegra" hostname then reboot else wait) ;;
      do tacfiles <- find_buildbot_tacfiles ;
      if negb (bool_decide ("buildbot.tac" ∈ tacfiles)) then
        log_info "Found these tacfiles: %s" tacfiles ;;
        match disabled_by_bug tacfiles with
        | Some bug => log_info "Disabled by bug %s" [bug] ;; ret (Some tt)
        | None => log_info "Didn't find buildbot.tac" [] ;; ret (Some tt)
        end
      else
        do data <- tail_twistd_log 10 ;
        if str_in "Stopping factory" data then
          log_info "Looks like the slave isn't connected; rebooting!" [] ;;
          reboot ;;
          ret (Some tt)
        else
          do ok <- graceful_shutdown ;
          if negb ok then
            log_info "graceful_shutdown failed; aborting" [] ;;
            ret (Some tt)
          else
            log_info "Waiting for shutdown" [] ;;
            poll_loop fuel 0
    else ret (Some tt)
  else ret (Some tt).

(** The state of one worker: the two queues and the trace so far. *)
Record WorkerState : Type := {
  jobs : list string;
  done_queue : list string;
  trace : list Event
}.

(** Lines 122-129, one pass through the body of [while True] in
    [processKittens]: a non-blocking [get]; on [Empty] nothing happens;
    otherwise [checkKitten] and then [results.put(job)]. *)
Definition processKittens_step (fuel : nat) (o : options.t)
    (w : WorkerState) : option WorkerState :=
  match jobs w with
  | [] => Some w
  | job :: rest =>
      match checkKitten fuel job o (trace w) with
      | (Some _, tr) =>
          Some {| jobs := rest; done_queue := done_queue w ++ [job];
                  trace := tr |}
      | (None, _) => None
      end
  end.

(** [n] passes of the worker loop. *)
Fixpoint processKittens (n : nat) (fuel : nat) (o : options.t)
    (w : WorkerState) : option WorkerState :=
  match n with
  | O => Some w
  | S n' =>
      match processKittens_step fuel o w with
      | Some w' => processKittens n' fuel o w'
      | None => None
      end
  end.
End RemoteSlave.

(* ===================================================================== *)
(** * [datetime] and [timedelta] *)
(* ===================================================================== *)

(** A naive [datetime.datetime]: the fields the object stores. *)
Record datetime : Type := {
  year : Z; month : Z; day : Z;
  hour : Z; minute : Z; second : Z; microsecond : Z
}.

Global Instance datetime_eq_dec : EqDecision datetime.
Proof. solve_decision. Defined.

(** A normalised [datetime.timedelta]: [0 <= seconds < 86400] and
    [0 <= microseconds < 1000000]; only [days] carries the sign. *)
Record timedelta : Type := {
  td_days : Z; td_seconds : Z; td_microseconds : Z
}.

Definition is_leap (y : Z) : bool :=
  (y `mod` 4 =? 0) && (negb (y `mod` 100 =? 0) || (y `mod` 400 =? 0)).

Definition days_in_month (y m : Z) : Z :=
  if (m =? 2) && is_leap y then 29
  else match m with
       | 1 => 31 | 2 => 28 | 3 => 31 | 4 => 30 | 5 => 31 | 6 => 30
       | 7 => 31 | 8 => 31 | 9 => 30 | 10 => 31 | 11 => 30 | _ => 31
       end.

(** Days before January 1st of year [y]. *)
Definition days_before_year (y : Z) : Z :=
  let y := y - 1 in y * 365 + y `div` 4 - y `div` 100 + y `div` 400.

(** Days of year [y] before the first of month [m]. *)
Definition days_before_month (y m : Z) : Z :=
  match m with
  | 1 => 0 | 2 => 31 | 3 => 59 | 4 => 90 | 5 => 120 | 6 => 151
  | 7 => 181 | 8 => 212 | 9 => 243 | 10 => 273 | 11 => 304 | _ => 334
  end + (if (2 <? m) && is_leap y then 1 else 0).

(** [d.toordinal()]: 0001-01-01 is day 1. *)
Definition toordinal (d : datetime) : Z :=
  days_before_year (year d) + days_before_month (year d) (month d) + day d.

(** What the constructor of [datetime] accepts. *)
Definition valid_datetime (d : datetime) : bool :=
  bool_decide (1 ≤ year d ≤ 9999) && bool_decide (1 ≤ month d ≤ 12)
  && bool_decide (1 ≤ day d ≤ days_in_month (year d) (month d))
  && bool_decide (0 ≤ hour d ≤ 23) && bool_decide (0 ≤ minute d ≤ 59)
  && bool_decide (0 ≤ second d ≤ 59)
  && bool_decide (0 ≤ microsecond d ≤ 999999).

(** [timedelta(days, seconds, microseconds)] brought to normal form. *)
Definition mk_timedelta (days seconds microseconds : Z) : timedelta :=
  let total := (days * 86400 + seconds) * 1000000 + microseconds in
  {| td_days := total `div` 86400000000;
     td_seconds := (total `mod` 86400000000) `div` 1000000;
     td_microseconds := total `mod` 1000000 |}.

(** The span a [timedelta] stands for, in microseconds. *)
Definition total_microseconds (td : timedelta) : Z :=
  (td_days td * 86400 + td_seconds td) * 1000000 + td_microseconds td.

Definition seconds_of_day (d : datetime) : Z :=
  second d + minute d * 60 + hour d * 3600.

(** [a - b] on two [datetime]s. *)
Definition datetime_sub (a b : datetime) : timedelta :=
  mk_timedelta (toordinal a - toordinal b)
               (seconds_of_day a - seconds_of_day b)
               (microsecond a - microsecond b).

(** ** [strftime] and [strptime] for ['%Y-%m-%dT%H:%M:%S'] *)

Definition digit_char (n : Z) : ascii :=
  match n with
  | 0 => "0" | 1 => "1" | 2 => "2" | 3 => "3" | 4 => "4"
  | 5 => "5" | 6 => "6" | 7 => "7" | 8 => "8" | _ => "9"
  end%char.

(** Two, and four, decimal digits of [n] in front of [rest]. *)
Definition put2 (n : Z) (rest : string) : string :=
  String (digit_char (n `div` 10)) (String (digit_char (n `mod` 10)) rest).

Definition put4 (n : Z) (rest : string) : string :=
  put2 (n `div` 100) (put2 (n `mod` 100) rest).

(** The text [strftime] produces for the date and time fields. *)
Definition isoformat_seconds (d : datetime) : string :=
  put4 (year d) (String "-" (put2 (month d) (String "-" (put2 (day d)
    (String "T" (put2 (hour d) (String ":" (put2 (minute d)
      (String ":" (put2 (second d) EmptyString)))))))))).

(** [ts.strftime('%Y-%m-%dT%H:%M:%S')]. Python 2 refuses years before
    1900. The microseconds are not printed. *)
Definition strftime (d : datetime) : Exc string :=
  if bool_decide (year d < 1900) then
    Raise (ValueError "year is before 1900")
  else Ok (isoformat_seconds d).

(** [int(ds)] for a string of digits, from the value [acc] of the digits
    already read. *)
Fixpoint digits_value_from (acc : Z) (ds : string) : Z :=
  match ds with
  | EmptyString => acc
  | String a ds' =>
      digits_value_from (acc * 10 + Z.of_nat (default 0%nat (Ascii.is_nat a))) ds'
  end.

Definition digits_value (ds : string) : Z := digits_value_from 0 ds.

(** A numeric directive of one or two digits with value in [lo..hi],
    followed by something that is not a digit. *)
Definition number_field (lo hi : Z) (s : string) : option (Z * string) :=
  let '(ds, rest) := span_digits s in
  let n := digits_value ds in
  if bool_decide (1 ≤ String.length ds ≤ 2)%nat && bool_decide (lo ≤ n ≤ hi)
  then Some (n, rest) else None.

(** [%Y]: exactly four digits. *)
Definition year_field (s : string) : option (Z * string) :=
  let '(ds, rest) := span_digits s in
  if bool_decide (String.length ds = 4%nat) then Some (digits_value ds, rest)
  else None.

(** [%d] also takes a blank followed by one digit from 1 to 9. *)
Definition day_field (s : string) : option (Z * string) :=
  match s with
  | String " " (String a rest) =>
      match Ascii.is_nat a with
      | Some (S n) => Some (Z.of_nat (S n), rest)
      | _ => None
      end
  | _ => number_field 1 31 s
  end.

(** One literal character of the format; letters match in either case. *)
Definition literal (c : ascii) (s : string) : option string :=
  match s with
  | String a rest =>
      if Ascii.eqb a c then Some rest
      else if Ascii.eqb c "T" && Ascii.eqb a "t" then Some rest
      else None
  | EmptyString => None
  end.

(** The fields of a string in the format ['%Y-%m-%dT%H:%M:%S'], when the
    whole string matches. *)
Definition match_format (s : string) : option datetime :=
  '(Y, s) ← year_field s;
  s ← literal "-" s;
  '(m, s) ← number_field 1 12 s;
  s ← literal "-" s;
  '(d, s) ← day_field s;
  s ← literal "T" s;
  '(H, s) ← number_field 0 23 s;
  s ← literal ":" s;
  '(M, s) ← number_field 0 59 s;
  s ← literal ":" s;
  '(sec, s) ← number_field 0 61 s;
  if bool_decide (s = EmptyString) then
    Some {| year := Y; month := m; day := d; hour := H; minute := M;
            second := sec; microsecond := 0 |}
  else None.

(** [datetime.datetime.strptime(s, '%Y-%m-%dT%H:%M:%S')]: [ValueError] when
    the string does not match the format or the fields are no date. *)
Definition strptime (s : string) : Exc datetime :=
  match match_format s with
  | Some d =>
      if valid_datetime d then Ok d
      else Raise (ValueError "field out of range")
  | None => Raise (ValueError "does not match format")
  end.

(* ===================================================================== *)
(** * The seen cache: [loadCache] (lines 131-143), [writeCache] (145-150) *)
(* ===================================================================== *)

(** Lines 135-136: [kitten, s = item.split(' ')] needs exactly two pieces;
    then [strptime(s.strip(), ...)]. *)
Definition parse_cache_line (item : string) : Exc (string * datetime) :=
  match split space item with
  | [kitten; s] => exc_bind (strptime (strip s)) (λ ts, Ok (kitten, ts))
  | _ => Raise (ValueError "need exactly 2 values to unpack")
  end.

(** Lines 138-140: the test that keeps an entry. *)
Definition fresh (now ts : datetime) : bool :=
  let elapsed := datetime_sub now ts in
  let seconds := td_days elapsed * 86400 + td_seconds elapsed in
  bool_decide (seconds ≤ 3600).

(** Lines 134-141. [clock n] is what [datetime.datetime.now()] returns
    while line number [n] of the file is handled. *)
Fixpoint loadCache_loop (clock : nat → datetime) (n : nat)
    (lines : list string) (result : gmap string datetime)
    : Exc (gmap string datetime) :=
  match lines with
  | [] => Ok result
  | item :: rest =>
      match parse_cache_line item with
      | Raise e => Raise e
      | Ok (kitten, ts) =>
          loadCache_loop clock (S n) rest
            (if fresh (clock n) ts then <[kitten := ts]> result else result)
      end
  end.

(** [loadCache(cachefile)]; the file is given by its content, [None] when
    [os.path.isfile] is false. *)
Definition loadCache (clock : nat → datetime) (cachefile : option string)
    : Exc (gmap string datetime) :=
  match cachefile with
  | Some content => loadCache_loop clock 0 (readlines content) ∅
  | None => Ok ∅
  end.

(** Line 149: ['%s %s\n' % (kitten, ts.strftime(...))]. *)
Definition cache_line (kitten : string) (ts : datetime) : Exc string :=
  exc_bind (strftime ts) (λ s,
    Ok (kitten +:+ String space (s +:+ String newline EmptyString))).

(** Lines 147-149 over the entries in the order [cache.keys()] gives. *)
Fixpoint write_entries (entries : list (string * datetime)) : Exc string :=
  match entries with
  | [] => Ok EmptyString
  | (kitten, ts) :: rest =>
      exc_bind (cache_line kitten ts) (λ line,
      exc_bind (write_entries rest) (λ more, Ok (line +:+ more)))
  end.

(** [writeCache(cachefile, cache)]: the new content of the file. The order
    of a [dict]'s keys is not specified; the model takes that of
    [map_to_list]. *)
Definition writeCache (cache : gmap string datetime) : Exc string :=
  write_entries (map_to_list cache).

(* ===================================================================== *)
(** * The rest of [__main__]: the candidate source (lines 185-195) and the
      wait for the workers (lines 240-249) *)
(* ===================================================================== *)

(** [c.lower()] for one character of a byte string. *)
Definition lower_char (c : ascii) : ascii :=
  let n := nat_of_ascii c in
  if (65 <=? n)%nat && (n <=? 90)%nat then ascii_of_nat (n + 32) else c.

(** [s.lower()] *)
Fixpoint lower (s : string) : string :=
  match s with
  | EmptyString => EmptyString
  | String a s' => String (lower_char a) (lower s')
  end.

(** Lines 185-195. [fetchUrl] gives the body of a URL or [None]; [files]
    gives the content of a path that exists. The result is [None] when
    [kittens] stays [None] (the path does not exist). *)
Definition candidate_lines (fetchUrl : string → option string)
    (files : string → option string) (source : string)
    : option (list string) :=
  if startswith "http://" (lower source) then
    match fetchUrl source with
    | Some items => Some (split newline items)
    | None => Some []
    end
  else
    match files source with
    | Some content => Some (readlines content)
    | None => None
    end.

(** [l.remove(x)]: the first occurrence of [x] goes. (Python raises when
    there is none; line 247 asks [result in results] first.) *)
Fixpoint remove_first (x : string) (l : list string) : list string :=
  match l with
  | [] => []
  | y :: l' => if decide (y = x) then l' else y :: remove_first x l'
  end.

(** What the loop of lines 240-249 works on: the list [results] of jobs
    not yet reported, [seenCache], and how often the clock was read. *)
Record Waiting : Type := {
  outstanding : list string;
  seen : gmap string datetime;
  clock_reads : nat
}.

(** Lines 241-249, one pass: [arrival] is what [resultQueue.get(False)]
    gave, [None] for [Empty]. *)
Definition collect_step (clock : nat → datetime) (arrival : option string)
    (w : Waiting) : Waiting :=
  match arrival with
  | None => w
  | Some result =>
      if bool_decide (result ∈ outstanding w) then
        {| outstanding := remove_first result (outstanding w);
           seen := <[result := clock (clock_reads w)]> (seen w);
           clock_reads := S (clock_reads w) |}
      else w
  end.

(** Lines 240-249: [while len(results) > 0]. The passes are driven by what
    arrives on the result queue; [None] means that the loop is still
    waiting when [arrivals] is used up. *)
Fixpoint collect (clock : nat → datetime) (arrivals : list (option string))
    (w : Waiting) : option Waiting :=
  match outstanding w with
  | [] => Some w
  | _ :: _ =>
      match arrivals with
      | [] => None
      | arrival :: rest => collect clock rest (collect_step clock arrival w)
      end
  end.

(** A [datetime] with its microseconds dropped. *)
Definition whole_second (d : datetime) : datetime :=
  {| year := year d; month := month d; day := day d; hour := hour d;
     minute := minute d; second := second d; microsecond := 0 |}.

(* ===================================================================== *)
(** * Notions used in the statements *)
(* ===================================================================== *)

(** The hosts [dispatch_kitten] lets through. *)
Definition dispatchable (slaves : gmap string Slave) (kitten : string) : Prop :=
  ∃ slave, slaves !! kitten = Some slave
           ∧ enabled slave = true ∧ notes slave = EmptyString.

(** How often the event [e] occurs in [evs]. *)
Definition occurrences (e : Event) (evs : list Event) : nat :=
  length (filter (λ x, x = e) evs).

(** What the loop of lines 104-118 adds to the trace when it gives up. *)
Definition giving_up (remote : Remote) (tr : list Event) : list Event :=
  let tr1 := tr ++ [EvLog "Took too long to shut down; giving up" []] in
  let data := log_tail remote tr1 10 in
  [EvLog "Took too long to shut down; giving up" []; EvTail 10]
  ++ (if bool_decide (data = EmptyString) then []
      else [EvLog "last 10 lines are: %s" [data]]).

(** What it adds when a poll shows the shutdown. *)
Definition rebooting : list Event :=
  [EvTail 5; EvLog "Rebooting!" []; EvReboot].

(** [s] is empty or starts with something that is not a digit. *)
Definition digits_end (s : string) : Prop :=
  match s with
  | EmptyString => True
  | String c _ => Ascii.is_nat c = None
  end.

(** The line [writeCache] writes for an entry. *)
Definition entry_text (entry : string * datetime) : string :=
  entry.1 +:+ String space
    (isoformat_seconds entry.2 +:+ String newline EmptyString).

(** [ts] lies at most 3600 seconds before or after [now]. *)
Definition within_hour (now ts : datetime) : Prop :=
  -3600000000 ≤ total_microseconds (datetime_sub now ts) ≤ 3600000000.

(** An entry [writeCache] can write and [loadCache] reads back. *)
Definition writable (entry : string * datetime) : Prop :=
  has_char space entry.1 = false ∧ has_char newline entry.1 = false
  ∧ valid_datetime entry.2 = true ∧ microsecond entry.2 = 0
  ∧ 1900 ≤ year entry.2.

(** [st'] is [st] with [added] put on the work queue and on [results],
    and [logs] logged. *)
Definition extends (st st' : MainState) (added : list string)
    (logs : list LogEntry) : Prop :=
  workQueue st' = workQueue st ++ added
  ∧ results st' = results st ++ added
  ∧ logged st' = logged st ++ logs.

(** The inventory record made from an item of the slavealloc list. *)
Definition slave_of_item (item : SlaveItem) : Slave :=
  {| enabled := item_enabled item;
     notes := default EmptyString (item_notes item) |}.

(** [k] passes of the shutdown loop that neither reboot nor give up: a
    poll of the log and a sleep each. *)
Definition polls (k : nat) : list Event :=
  concat (replicate k [EvTail 5; EvSleep 5]).

(** Every character of [s] is one of [0] to [9]. *)
Fixpoint all_digits (s : string) : bool :=
  match s with
  | EmptyString => true
  | String a s' => bool_decide (is_Some (Ascii.is_nat a)) && all_digits s'
  end.

(** The seconds slept in a trace. *)
Fixpoint slept (evs : list Event) : Z :=
  match evs with
  | [] => 0
  | EvSleep seconds :: evs' => seconds + slept evs'
  | _ :: evs' => slept evs'
  end.

(** What [loadCache] keeps: identifiers without a blank, dates that exist,
    without microseconds, less than 3601 seconds before a reading of the
    clock. *)
Definition loaded_entry (clock : nat → datetime) (kitten : string)
    (ts : datetime) : Prop :=
  has_char space kitten = false
  ∧ valid_datetime ts = true ∧ microsecond ts = 0
  ∧ ∃ n, total_microseconds (datetime_sub (clock n) ts) < 3601000000.

(** [sub] occurs in [s]: [s] is some text, then [sub], then some text. *)
Definition contains (sub s : string) : Prop :=
  ∃ before after, s = before +:+ (sub +:+ after).

(** The log tail is empty or has one of the two markers of a finished
    shutdown. *)
Definition shows_shutdown (data : string) : Prop :=
  data = EmptyString
  ∨ contains "Main loop terminated" data
  ∨ contains "ProcessExitedAlready" data.

(** The entry read while line [i] was handled is less than 3601 seconds
    old. *)
Definition under_3601_seconds (clock : nat → datetime) (i : nat)
    (ts : datetime) : Prop :=
  total_microseconds (datetime_sub (clock i) ts) < 3601000000.

(* ===================================================================== *)
(** * Concrete inputs *)
(* ===================================================================== *)

(** The inventory of the end-to-end scenario: [a] enabled, [b] disabled,
    and [c], enabled, with a note. *)
Definition example_slaves : gmap string Slave :=
  build_slaves
    [ {| item_name := "a"; item_enabled := true; item_notes := None |};
      {| item_name := "b"; item_enabled := false; item_notes := None |};
      {| item_name := "c"; item_enabled := true;
         item_notes := Some "see bug 1234" |} ].

(** A remote side whose slave has [buildbot.tac] and whose log says that
    the factory was stopped. *)
Definition detached_slave : Remote :=
  {| slave_present := λ _, true;
     tacfiles_found := λ _, ["buildbot.tac"];
     log_tail := λ _ _, "Stopping factory <HTTPClientFactory>";
     shutdown_accepted := λ _, true |}.

(** The moments of the counterexample: an entry stamped at midnight, read
    an hour and half a second later. *)
Definition midnight : datetime :=
  {| year := 2012; month := 1; day := 1;
     hour := 0; minute := 0; second := 0; microsecond := 0 |}.

Definition an_hour_and_a_half_second_later : datetime :=
  {| year := 2012; month := 1; day := 1;
     hour := 1; minute := 0; second := 0; microsecond := 500000 |}.

Definition an_hour_later : datetime :=
  {| year := 2012; month := 1; day := 1;
     hour := 1; minute := 0; second := 0; microsecond := 0 |}.

Definition an_hour_and_a_second_later : datetime :=
  {| year := 2012; month := 1; day := 1;
     hour := 1; minute := 0; second := 1; microsecond := 0 |}.

(** A cache file with one entry, stamped at midnight. *)
Definition one_entry_file : string :=
  "a 2012-01-01T00:00:00" +:+ String newline EmptyString.

(** A pattern that finds a match on the identifiers starting with
    [talos]. *)
Definition talos_only : Pattern := λ kitten, Some (startswith "talos" kitten).

(** A candidate source on the web whose body is one line with its
    newline. *)
Definition example_url : string :=
  "http://build.mozilla.org/builds/slaves_needing_reboot.txt".

Definition example_fetchUrl : string → option string :=
  λ _, Some ("a,Yes" +:+ String newline EmptyString).

(** The default options with [--dryrun]. *)
Definition dryrun_options : options.t :=
  {| options.config := None; options.debug := true;
     options.background := false; options.logpath := None;
     options.kittens := None; options.filter := None;
     options.class := None; options.workers := 4;
     options.dryrun := true; options.filterbase := "^%s";
     options.username := "cltbld"; options.password := None;
     options.cachefile := None; options.force := false |}.

(** A cache file whose second line has no blank. *)
Definition broken_file : string :=
  one_entry_file +:+ ("broken" +:+ String newline EmptyString).

(** The main process waiting for [a] and [b]. *)
Definition waiting_for_a_b : Waiting :=
  {| outstanding := ["a"; "b"]; seen := ∅; clock_reads := 0 |}.

(** A remote side whose log shows the end of the main loop only in the
    ten lines fetched when the wait is given up; the five-line polls show
    a slave that is still busy. *)
Definition late_marker : Remote :=
  {| slave_present := λ _, true;
     tacfiles_found := λ _, ["buildbot.tac"];
     log_tail := λ _ n, if bool_decide (n = 10) then "Main loop terminated."
                        else "slave is busy";
     shutdown_accepted := λ _, true |}.

(** A day before [midnight]. *)
Definition the_day_before : datetime :=
  {| year := 2011; month := 12; day := 31;
     hour := 0; minute := 0; second := 0; microsecond := 0 |}.

(** A cache file with a recent and an old entry. *)
Definition two_entry_file : string :=
  one_entry_file
  +:+ ("b 2011-12-31T00:00:00" +:+ String newline EmptyString).

Definition ten_minutes_later : datetime :=
  {| year := 2012; month := 1; day := 1;
     hour := 0; minute := 10; second := 0; microsecond := 250000 |}.

(* ===================================================================== *)
(** * Properties of the candidate filter *)
(* ===================================================================== *)

Lemma str_in_comma (s : string) : str_in "," s = has_char comma s.
Proof.
  induction s as [|a s IH]; [reflexivity|].
  cbn [str_in has_char startswith]. rewrite IH.
  rewrite (Ascii.eqb_sym "," a). unfold comma.
  destruct (Ascii.eqb a ","); reflexivity.
Qed.

Lemma split_nonempty (c : ascii) (s : string) : split c s ≠ [].
Proof.
  destruct s as [|a s]; cbn; [discriminate|].
  destruct (Ascii.eqb a c); [discriminate|].
  destruct (split c s); discriminate.
Qed.

Lemma split_first (c : ascii) (s : string) :
  split c s !! 0%nat = Some (before_first c s).
Proof.
  induction s as [|a s IH]; [reflexivity|].
  cbn [split before_first]. destruct (Ascii.eqb a c); [reflexivity|].
  destruct (split c s) as [|p ps]; [discriminate IH|].
  cbn in IH |- *. congruence.
Qed.

Lemma parse_item_queue (reFilter : option Pattern) item st :
  workQueue (parse_item reFilter item st).2 = workQueue st
  ∧ results (parse_item reFilter item st).2 = results st.
Proof.
  unfold parse_item. destruct (extract_kitten item); [|done].
  destruct reFilter as [search|]; [|done].
  destruct (search s) as [[]|]; done.
Qed.

Lemma parse_item_accepts (reFilter : option Pattern) item st kitten :
  (parse_item reFilter item st).1 = Some kitten →
  parse_item reFilter item st = (Some kitten, st).
Proof.
  unfold parse_item. destruct (extract_kitten item); [|done].
  destruct reFilter as [search|]; [|by intros [= ->]].
  destruct (search s) as [[]|]; try done. by intros [= ->].
Qed.

Lemma notes_length_test (s : string) :
  bool_decide (0 < Z.of_nat (String.length s)) = false → s = EmptyString.
Proof.
  destruct s; [done|]. intros H%bool_decide_eq_false. cbn in H. lia.
Qed.

Lemma dispatch_kitten_queue {V} slaves (seenCache : gmap string V) force
    kitten st st' :
  dispatch_kitten slaves seenCache force kitten st = Ok st' →
  workQueue st' = workQueue st
  ∨ (workQueue st' = workQueue st ++ [kitten] ∧ dispatchable slaves kitten).
Proof.
  unfold dispatch_kitten, getitem.
  destruct (slaves !! kitten) as [slave|] eqn:Hs; [|done]. cbn.
  destruct (enabled slave) eqn:He; cbn; [|intros [= <-]; by left].
  destruct (bool_decide _) eqn:Hn; [intros [= <-]; by left|].
  apply notes_length_test in Hn.
  assert (dispatchable slaves kitten) by (by exists slave).
  destruct (in_dict kitten seenCache); [destruct force|];
    intros [= <-]; cbn; auto.
Qed.

Lemma filter_item_queue {V} slaves (seenCache : gmap string V) reFilter force
    item st st' :
  filter_item slaves seenCache reFilter force item st = Ok st' →
  workQueue st' = workQueue st
  ∨ (∃ kitten, workQueue st' = workQueue st ++ [kitten]
               ∧ dispatchable slaves kitten).
Proof.
  unfold filter_item.
  pose proof (parse_item_queue reFilter item st) as [Hq _].
  destruct (parse_item reFilter item st) as [[kitten|] st1]; cbn in Hq.
  - intros [H|[H1 H2]]%dispatch_kitten_queue; [left|right]; [congruence|].
    exists kitten. split; [congruence|done].
  - intros [= <-]. by left.
Qed.

Lemma filter_loop_queue {V} slaves (seenCache : gmap string V) reFilter force
    items st kitten :
  kitten ∈ workQueue (filter_loop slaves seenCache reFilter force items st).1 →
  kitten ∈ workQueue st ∨ dispatchable slaves kitten.
Proof.
  revert st. induction items as [|item rest IH]; intros st; cbn; [auto|].
  destruct (filter_item _ _ _ _ _ _) as [st'|e] eqn:Hi; cbn; [|auto].
  intros [Hin|Hd]%IH; [|auto].
  apply filter_item_queue in Hi as [Hq|(k & Hq & Hk)]; rewrite Hq in Hin.
  - auto.
  - apply elem_of_app in Hin as [?|Hin]; [auto|].
    apply list_elem_of_singleton in Hin as ->. auto.
Qed.

Lemma filter_loop_app {V} slaves (seenCache : gmap string V) reFilter force
    pre post st st1 :
  filter_loop slaves seenCache reFilter force pre st = (st1, None) →
  filter_loop slaves seenCache reFilter force (pre ++ post) st
  = filter_loop slaves seenCache reFilter force post st1.
Proof.
  revert st. induction pre as [|item pre IH]; intros st; cbn.
  - by intros [= ->].
  - destruct (filter_item _ _ _ _ _ _); [apply IH|done].
Qed.

(** C2: whatever the lines, the pattern, the seen cache and [--force], a
    host whose inventory record is disabled or carries a note is not put
    on the work queue. *)
Theorem C2_disabled_or_noted_never_enqueued {V} (slaves : gmap string Slave)
    (seenCache : gmap string V) (reFilter : option Pattern) (force : bool)
    (kittens : list string) (kitten : string) (slave : Slave) :
  slaves !! kitten = Some slave →
  enabled slave = false ∨ notes slave ≠ EmptyString →
  kitten ∉ workQueue
    (filter_loop slaves seenCache reFilter force kittens initial_state).1.
Proof.
  intros Hs Hbad [Hin|(slave' & Hs' & He & Hn)]%filter_loop_queue.
  - cbn in Hin. by apply elem_of_nil in Hin.
  - rewrite Hs in Hs'. injection Hs' as <-.
    destruct Hbad; congruence.
Qed.

(** C5: a candidate that passed the pattern, is enabled, has no note and
    is in the seen cache is skipped without [--force] and put on the work
    queue with it. *)
Theorem C5_seen_cache_and_force {V} (slaves : gmap string Slave)
    (seenCache : gmap string V) (reFilter : option Pattern)
    (item kitten : string) (slave : Slave) (st : MainState) :
  (parse_item reFilter item st).1 = Some kitten →
  slaves !! kitten = Some slave →
  enabled slave = true →
  notes slave = EmptyString →
  is_Some (seenCache !! kitten) →
  (∃ st', filter_item slaves seenCache reFilter false item st = Ok st'
          ∧ workQueue st' = workQueue st ∧ results st' = results st)
  ∧ (∃ st', filter_item slaves seenCache reFilter true item st = Ok st'
            ∧ workQueue st' = workQueue st ++ [kitten]
            ∧ results st' = results st ++ [kitten]).
Proof.
  intros Hp%parse_item_accepts Hs He Hn Hc.
  unfold filter_item, dispatch_kitten, getitem, in_dict.
  rewrite Hp, Hs. cbn. rewrite He, Hn. cbn.
  rewrite (bool_decide_eq_true_2 _ Hc).
  split; eexists; (split; [reflexivity|]); done.
Qed.

(** C6, as the code has it: the identifier is the text before the first
    comma when the line has one, and otherwise the line as it was read,
    not trimmed; ["foo,Yes"] gives ["foo"]. *)
Theorem C6_extract_kitten (item : string) :
  extract_kitten item
  = Some (if has_char comma item then before_first comma item else item)
  ∧ extract_kitten "foo,Yes" = Some "foo".
Proof.
  split; [|reflexivity].
  unfold extract_kitten. rewrite str_in_comma.
  destruct (has_char comma item); [apply split_first|reflexivity].
Qed.

(** C6 as stated fails: a line without a comma is not trimmed. The line
    ["foo"] followed by a newline keeps its newline. *)
Lemma C6_line_not_trimmed :
  let item := String "f" (String "o" (String "o" (String newline EmptyString))) in
  has_char comma item = false
  ∧ strip item = "foo"
  ∧ extract_kitten item ≠ Some (strip item).
Proof. cbn. split; [reflexivity|]. split; [reflexivity|discriminate]. Qed.

(** C8: a candidate that passed the pattern and is not in the inventory
    ends the loop with [KeyError]; the lines after it are not looked at,
    and the loop's state is the one reached before that candidate. *)
Theorem C8_unknown_kitten_aborts {V} (slaves : gmap string Slave)
    (seenCache : gmap string V) (reFilter : option Pattern) (force : bool)
    (before after : list string) (item kitten : string) (st st1 : MainState) :
  filter_loop slaves seenCache reFilter force before st = (st1, None) →
  (parse_item reFilter item st1).1 = Some kitten →
  slaves !! kitten = None →
  filter_loop slaves seenCache reFilter force (before ++ item :: after) st
  = (st1, Some (KeyError kitten)).
Proof.
  intros Hpre Hp%parse_item_accepts Hs.
  rewrite (filter_loop_app _ _ _ _ _ _ _ _ Hpre). cbn.
  unfold filter_item, dispatch_kitten, getitem. by rewrite Hp, Hs.
Qed.

(* ===================================================================== *)
(** * Properties of [checkKitten] and of the worker loop *)
(* ===================================================================== *)

Section PollLoop.
Variable remote : Remote.

Lemma poll_loop_S fuel count tr :
  poll_loop remote (S fuel) count tr
  = match poll_body remote count tr with
    | (Break, tr') => (Some (), tr')
    | (Continue count', tr') => poll_loop remote fuel count' tr'
    end.
Proof.
  cbn [poll_loop]. unfold bind.
  destruct (poll_body remote count tr) as [[c|] tr']; reflexivity.
Qed.

Lemma poll_body_gives_up count tr :
  30 ≤ count + 1 →
  poll_body remote count tr = (Break, tr ++ giving_up remote tr).
Proof.
  intros H. unfold poll_body, giving_up.
  rewrite (bool_decide_eq_true_2 _ H).
  unfold bind, log_info, emit, tail_twistd_log, ret.
  destruct (bool_decide (log_tail remote _ 10 = EmptyString));
    by rewrite <- ?app_assoc.
Qed.

Lemma poll_body_reboots count tr :
  count + 1 < 30 →
  shutdown_seen (log_tail remote tr 5) = true →
  poll_body remote count tr = (Break, tr ++ rebooting).
Proof.
  intros H Hseen. unfold poll_body.
  rewrite bool_decide_eq_false_2 by lia.
  unfold bind, tail_twistd_log. rewrite Hseen.
  unfold log_info, reboot, emit, ret, rebooting. by rewrite <- !app_assoc.
Qed.

Lemma poll_body_sleeps count tr :
  count + 1 < 30 →
  shutdown_seen (log_tail remote tr 5) = false →
  poll_body remote count tr
  = (Continue (count + 1), tr ++ [EvTail 5; EvSleep 5]).
Proof.
  intros H Hseen. unfold poll_body.
  rewrite bool_decide_eq_false_2 by lia.
  unfold bind, tail_twistd_log. rewrite Hseen.
  unfold sleep, emit, ret. by rewrite <- !app_assoc.
Qed.

Lemma giving_up_events tr :
  occurrences (EvSleep 5) (giving_up remote tr) = 0%nat
  ∧ (EvReboot ∉ giving_up remote tr)
  ∧ EvLog "Took too long to shut down; giving up" [] ∈ giving_up remote tr.
Proof.
  unfold giving_up. destruct (bool_decide _); cbn.
  - split; [reflexivity|]. split; [|set_solver].
    intros H. repeat (apply elem_of_cons in H as [?|H]; [done|]).
    by apply elem_of_nil in H.
  - split; [reflexivity|]. split; [|set_solver].
    intros H. repeat (apply elem_of_cons in H as [?|H]; [done|]).
    by apply elem_of_nil in H.
Qed.

(** The outcome of the loop when it is entered with [count = 29 - r]:
    it stops after some [n <= r + 1] passes. *)
Lemma poll_loop_from (r : nat) : ∀ count tr,
  count = 29 - Z.of_nat r →
  ∃ (n : nat) (evs : list Event),
    (1 ≤ n ≤ S r)%nat
    ∧ (∀ fuel, (n ≤ fuel)%nat →
         poll_loop remote fuel count tr = (Some (), tr ++ evs))
    ∧ (∀ fuel, (fuel < n)%nat → (poll_loop remote fuel count tr).1 = None)
    ∧ occurrences (EvSleep 5) evs = (n - 1)%nat
    ∧ (((n ≤ r)%nat
        ∧ ∃ before, tr ++ evs = before ++ rebooting
                    ∧ shutdown_seen (log_tail remote before 5) = true)
       ∨ (n = S r ∧ (EvReboot ∉ evs)
          ∧ EvLog "Took too long to shut down; giving up" [] ∈ evs)).
Proof.
  induction r as [|r IH]; intros count tr Hc.
  - exists 1%nat, (giving_up remote tr).
    destruct (giving_up_events tr) as (Hs & Hr & Hl).
    split; [lia|]. split; [|split; [|split]].
    + intros [|fuel] ?; [lia|].
      rewrite poll_loop_S, poll_body_gives_up by lia. reflexivity.
    + intros fuel ?. assert (fuel = 0%nat) as -> by lia. reflexivity.
    + by rewrite Hs.
    + right. done.
  - destruct (shutdown_seen (log_tail remote tr 5)) eqn:Hseen.
    + exists 1%nat, rebooting.
      split; [lia|]. split; [|split; [|split]].
      * intros [|fuel] ?; [lia|].
        rewrite poll_loop_S, poll_body_reboots by (done || lia). reflexivity.
      * intros fuel ?. assert (fuel = 0%nat) as -> by lia. reflexivity.
      * reflexivity.
      * left. split; [lia|]. by exists tr.
    + destruct (IH (count + 1) (tr ++ [EvTail 5; EvSleep 5]))
        as (n & evs & Hn & Hrun & Hshort & Hsl & Hend); [lia|].
      exists (S n), ([EvTail 5; EvSleep 5] ++ evs).
      split; [lia|]. split; [|split; [|split]].
      * intros [|fuel] ?; [lia|].
        rewrite poll_loop_S, poll_body_sleeps by (done || lia).
        rewrite Hrun by lia. by rewrite <- app_assoc.
      * intros [|fuel] ?; [reflexivity|].
        rewrite poll_loop_S, poll_body_sleeps by (done || lia).
        apply Hshort. lia.
      * unfold occurrences in *. rewrite filter_app, length_app, Hsl.
        change (length (filter _ [EvTail 5; EvSleep 5])) with 1%nat. lia.
      * destruct Hend as [[Hle (before & Hb & Hs)]|(Heq & Hr & Hl)].
        -- left. split; [lia|]. exists before.
           split; [|done]. by rewrite app_assoc.
        -- right. split; [lia|]. split; [|apply elem_of_app; by right].
           intros H. apply elem_of_app in H as [H|H]; [|done].
           repeat (apply elem_of_cons in H as [?|H]; [done|]).
           by apply elem_of_nil in H.
Qed.

(** With enough fuel [checkKitten] returns normally. *)
Lemma checkKitten_returns fuel hostname o tr :
  (30 ≤ fuel)%nat →
  ∃ tr', checkKitten remote fuel hostname o tr = (Some (), tr').
Proof.
  intros Hfuel. unfold checkKitten.
  unfold bind, log_info, emit, ret, RemoteSlave, find_buildbot_tacfiles,
    tail_twistd_log, graceful_shutdown.
  destruct (options.dryrun o); cbn [negb]; [by eexists|].
  destruct (slave_present remote _); [|by eexists].
  destruct (str_in "tegra" hostname); cbn [reboot wait emit].
  all: destruct (bool_decide (_ ∈ tacfiles_found remote _)); cbn [negb].
  all: try (destruct (disabled_by_bug _); by eexists).
  all: destruct (str_in "Stopping factory" _); [by eexists|].
  all: destruct (shutdown_accepted remote _); cbn [negb]; [|by eexists].
  all: match goal with
       | |- ∃ tr', poll_loop _ _ _ ?t = _ =>
           destruct (poll_loop_from 29 0 t eq_refl)
             as (n & evs & Hn & Hrun & _);
           exists (t ++ evs); apply Hrun; lia
       end.
Qed.
End PollLoop.

(** C7: with fuel for the 30 passes of the shutdown loop, [checkKitten]
    returns for every job, whatever the remote side does and also under
    [--dryrun], and the pass of the worker loop that took the job from
    the work queue puts it on the result queue, once. *)
Theorem C7_worker_reports_every_job (remote : Remote) (fuel : nat)
    (o : options.t) (job : string) (rest finished : list string)
    (tr : list Event) :
  (30 ≤ fuel)%nat →
  ∃ tr',
    checkKitten remote fuel job o tr = (Some (), tr')
    ∧ processKittens_step remote fuel o
        {| jobs := job :: rest; done_queue := finished; trace := tr |}
      = Some {| jobs := rest; done_queue := finished ++ [job]; trace := tr' |}.
Proof.
  intros Hfuel.
  destruct (checkKitten_returns remote fuel job o tr Hfuel) as [tr' Hck].
  exists tr'. split; [done|].
  unfold processKittens_step. cbn [jobs trace done_queue]. by rewrite Hck.
Qed.

(** A worker that makes at least as many passes as there are jobs reports
    all of them, each once and in the order of the work queue. *)
Lemma processKittens_drains (remote : Remote) (fuel : nat) (o : options.t) :
  (30 ≤ fuel)%nat →
  ∀ (n : nat) (w : WorkerState),
    (length (jobs w) ≤ n)%nat →
    ∃ w', processKittens remote n fuel o w = Some w'
          ∧ jobs w' = []
          ∧ done_queue w' = done_queue w ++ jobs w.
Proof.
  intros Hfuel. induction n as [|n IH]; intros [js fin tr] Hlen; cbn in Hlen.
  - destruct js; [|cbn in Hlen; lia].
    eexists. split; [reflexivity|]. cbn. by rewrite app_nil_r.
  - cbn [processKittens]. destruct js as [|job rest].
    + cbn [processKittens_step jobs].
      destruct (IH {| jobs := []; done_queue := fin; trace := tr |})
        as (w' & Hrun & Hj & Hd); [cbn; lia|].
      by exists w'.
    + destruct (checkKitten_returns remote fuel job o tr Hfuel) as [tr' Hck].
      unfold processKittens_step. cbn [jobs trace done_queue]. rewrite Hck.
      destruct (IH {| jobs := rest; done_queue := fin ++ [job]; trace := tr' |})
        as (w' & Hrun & Hj & Hd); [cbn in *; lia|].
      exists w'. split; [done|]. split; [done|].
      cbn in Hd |- *. by rewrite Hd, <- app_assoc.
Qed.

(** For every tegra host that can be reached, the reboot that follows the
    connection at once (there is no wait) is itself followed by the
    listing of the tac files: line 77 has no [return]. *)
Lemma tegra_reboot_then_tacfiles (remote : Remote) (fuel : nat)
    (hostname : string) (o : options.t) (tr : list Event) :
  (30 ≤ fuel)%nat →
  str_in "tegra" hostname = true →
  options.dryrun o = false →
  slave_present remote (tr ++ [EvLog "checking kitten %s" [hostname]]) = true →
  ∃ more,
    checkKitten remote fuel hostname o tr
    = (Some (),
       tr ++ [EvLog "checking kitten %s" [hostname];
              EvConnect hostname (options.username o) (options.password o);
              EvReboot; EvFindTacfiles] ++ more).
Proof.
  intros Hfuel Htegra Hdry Hpresent. unfold checkKitten.
  unfold bind, log_info, emit, ret, RemoteSlave, find_buildbot_tacfiles,
    tail_twistd_log, graceful_shutdown.
  rewrite Hdry. cbn [negb]. rewrite Hpresent, Htegra. cbn [reboot emit].
  destruct (bool_decide (_ ∈ tacfiles_found remote _)); cbn [negb].
  { destruct (str_in "Stopping factory" _).
    { rewrite <- !app_assoc. cbn [app]. by eexists. }
    destruct (shutdown_accepted remote _); cbn [negb].
    - match goal with
      | |- ∃ more, poll_loop _ _ _ ?t = _ =>
          destruct (poll_loop_from remote 29 0 t eq_refl)
            as (n & evs & Hn & Hrun & _);
          rewrite (Hrun fuel) by lia
      end.
      rewrite <- !app_assoc. cbn [app]. by eexists.
    - rewrite <- !app_assoc. cbn [app]. by eexists. }
  destruct (disabled_by_bug _); rewrite <- !app_assoc; cbn [app]; by eexists.
Qed.

(** C1: on the host [tegra-050] the code reboots right after connecting,
    without waiting, as the claim says; but it does not stop there. It goes
    on to list the tac files and to tail the log, and here reboots a second
    time. *)
Theorem C1_tegra_reboot_is_not_terminal :
  checkKitten detached_slave 30 "tegra-050" options.default []
  = (Some (),
     [EvLog "checking kitten %s" ["tegra-050"];
      EvConnect "tegra-050" "cltbld" None;
      EvReboot;
      EvFindTacfiles;
      EvTail 10;
      EvLog "Looks like the slave isn't connected; rebooting!" [];
      EvReboot]).
Proof. reflexivity. Qed.

Lemma checkKitten_with_class (remote : Remote) fuel hostname c o :
  checkKitten remote fuel hostname (options.with_class c o)
  = checkKitten remote fuel hostname o.
Proof. reflexivity. Qed.

Lemma processKittens_with_class (remote : Remote) n fuel c o w :
  processKittens remote n fuel (options.with_class c o) w
  = processKittens remote n fuel o w.
Proof.
  revert w. induction n as [|n IH]; intros w; [reflexivity|].
  cbn [processKittens]. unfold processKittens_step.
  destruct (jobs w) as [|job rest]; [apply IH|].
  rewrite checkKitten_with_class.
  destruct (checkKitten remote fuel job o (trace w)) as [[[]|] tr];
    [apply IH|reflexivity].
Qed.

(** C10: two configurations that differ in [--class] only give the same
    work queue, the same outstanding jobs, the same log and the same
    exception from the filter loop, and the same behaviour of a worker. *)
Theorem C10_class_never_consulted {V} (re_compile : string → Pattern)
    (percent : string → string → string) (o : options.t)
    (c : option string) (slaves : gmap string Slave)
    (seenCache : gmap string V) (kittens : list string)
    (remote : Remote) (n fuel : nat) (w : WorkerState) :
  main_filter re_compile percent (options.with_class c o)
              slaves seenCache kittens
  = main_filter re_compile percent o slaves seenCache kittens
  ∧ processKittens remote n fuel (options.with_class c o) w
    = processKittens remote n fuel o w.
Proof. split; [reflexivity|apply processKittens_with_class]. Qed.

(** ** The theorems at concrete inputs *)

Lemma C2_disabled_or_noted_never_enqueued_witness :
  "b" ∉ workQueue
    (filter_loop example_slaves (∅ : gmap string datetime) None true
                 ["a,Yes"; "b,Yes"; "c,Yes"] initial_state).1.
Proof.
  apply (C2_disabled_or_noted_never_enqueued example_slaves ∅ None true
           ["a,Yes"; "b,Yes"; "c,Yes"] "b"
           {| enabled := false; notes := "" |}).
  - reflexivity.
  - left. reflexivity.
Defined.

Lemma C5_seen_cache_and_force_witness :
  let seen : gmap string Z := {[ "a" := 0 ]} in
  (∃ st', filter_item example_slaves seen None false "a,Yes" initial_state
          = Ok st'
          ∧ workQueue st' = [] ∧ results st' = [])
  ∧ (∃ st', filter_item example_slaves seen None true "a,Yes" initial_state
            = Ok st'
            ∧ workQueue st' = ["a"] ∧ results st' = ["a"]).
Proof.
  apply (C5_seen_cache_and_force example_slaves {[ "a" := 0 ]} None
           "a,Yes" "a" {| enabled := true; notes := "" |} initial_state).
  - reflexivity.
  - reflexivity.
  - reflexivity.
  - reflexivity.
  - exists 0. reflexivity.
Defined.

Lemma C7_worker_reports_every_job_witness :
  ∃ tr',
    checkKitten detached_slave 30 "talos-r4-snow-078" options.default []
    = (Some (), tr')
    ∧ processKittens_step detached_slave 30 options.default
        {| jobs := ["talos-r4-snow-078"; "tegra-050"];
           done_queue := []; trace := [] |}
      = Some {| jobs := ["tegra-050"];
                done_queue := [] ++ ["talos-r4-snow-078"]; trace := tr' |}.
Proof.
  apply (C7_worker_reports_every_job detached_slave 30 options.default
           "talos-r4-snow-078" ["tegra-050"] [] []).
  lia.
Defined.

Lemma C8_unknown_kitten_aborts_witness :
  filter_loop example_slaves (∅ : gmap string datetime) None false
              (["a,Yes"] ++ "zz,Yes" :: ["a,Yes"]) initial_state
  = ({| workQueue := ["a"]; results := ["a"]; logged := [] |},
     Some (KeyError "zz")).
Proof.
  apply (C8_unknown_kitten_aborts example_slaves ∅ None false
           ["a,Yes"] ["a,Yes"] "zz,Yes" "zz" initial_state
           {| workQueue := ["a"]; results := ["a"]; logged := [] |}).
  - reflexivity.
  - reflexivity.
  - reflexivity.
Defined.

(* ===================================================================== *)
(** * Strings: lines, pieces and stripping *)
(* ===================================================================== *)

Lemma app_String (a : ascii) (s t : string) :
  String a s +:+ t = String a (s +:+ t).
Proof. reflexivity. Qed.

Lemma app_empty_l (t : string) : EmptyString +:+ t = t.
Proof. reflexivity. Qed.

Lemma app_empty_r (s : string) : s +:+ EmptyString = s.
Proof.
  induction s as [|a s IH]; [reflexivity|]. by rewrite app_String, IH.
Qed.

Lemma app_assoc_str (s t u : string) : (s +:+ t) +:+ u = s +:+ (t +:+ u).
Proof.
  induction s as [|a s IH]; [reflexivity|].
  rewrite !app_String. by rewrite IH.
Qed.

Lemma has_char_app (c : ascii) (s t : string) :
  has_char c (s +:+ t) = has_char c s || has_char c t.
Proof.
  induction s as [|a s IH]; [reflexivity|].
  rewrite app_String. cbn [has_char]. rewrite IH. by rewrite orb_assoc.
Qed.

Lemma readlines_line (l rest : string) :
  has_char newline l = false →
  readlines (l +:+ String newline rest)
  = (l +:+ String newline EmptyString) :: readlines rest.
Proof.
  induction l as [|a l IH]; intros Hl.
  - reflexivity.
  - cbn [has_char] in Hl. apply orb_false_iff in Hl as [Ha Hl].
    rewrite !app_String. cbn [readlines]. rewrite Ha, (IH Hl). reflexivity.
Qed.

Lemma split_no_sep (c : ascii) (s : string) :
  has_char c s = false → split c s = [s].
Proof.
  induction s as [|a s IH]; intros Hs; [reflexivity|].
  cbn [has_char] in Hs. apply orb_false_iff in Hs as [Ha Hs].
  cbn [split]. by rewrite Ha, (IH Hs).
Qed.

Lemma split_at_sep (c : ascii) (s t : string) :
  has_char c s = false → split c (s +:+ String c t) = s :: split c t.
Proof.
  induction s as [|a s IH]; intros Hs.
  - rewrite app_empty_l. cbn [split]. by rewrite Ascii.eqb_refl.
  - cbn [has_char] in Hs. apply orb_false_iff in Hs as [Ha Hs].
    rewrite app_String. cbn [split]. by rewrite Ha, (IH Hs).
Qed.

Lemma no_white_has_char (c : ascii) (s : string) :
  isspace c = true → no_white s = true → has_char c s = false.
Proof.
  intros Hc. induction s as [|a s IH]; [done|].
  cbn [no_white has_char]. intros [Ha Hs]%andb_true_iff.
  rewrite (IH Hs), orb_false_r.
  destruct (Ascii.eqb_spec a c) as [->|]; [|done].
  by rewrite Hc in Ha.
Qed.

Lemma rstrip_no_white (s : string) : no_white s = true → rstrip s = s.
Proof.
  induction s as [|a s IH]; [done|].
  cbn [no_white rstrip]. intros [Ha Hs]%andb_true_iff.
  rewrite (IH Hs). apply negb_true_iff in Ha. rewrite Ha.
  by destruct s.
Qed.

Lemma lstrip_no_white (s : string) : no_white s = true → lstrip s = s.
Proof.
  destruct s as [|a s]; [done|].
  cbn [no_white lstrip]. intros [Ha _]%andb_true_iff.
  apply negb_true_iff in Ha. by rewrite Ha.
Qed.

Lemma rstrip_app_newline (s : string) :
  rstrip (s +:+ String newline EmptyString) = rstrip s.
Proof.
  induction s as [|a s IH]; [reflexivity|].
  rewrite app_String. cbn [rstrip]. by rewrite IH.
Qed.

Lemma lstrip_app (s t : string) :
  no_white s = true → s ≠ EmptyString → lstrip (s +:+ t) = s +:+ t.
Proof.
  destruct s as [|a s]; [done|]. intros [Ha _]%andb_true_iff _.
  rewrite app_String. cbn [lstrip]. apply negb_true_iff in Ha. by rewrite Ha.
Qed.

(** A text without white space survives [strip] with its newline cut. *)
Lemma strip_line (s : string) :
  no_white s = true → s ≠ EmptyString →
  strip (s +:+ String newline EmptyString) = s.
Proof.
  intros Hs Hne. unfold strip.
  rewrite lstrip_app, rstrip_app_newline by done.
  by apply rstrip_no_white.
Qed.

(* ===================================================================== *)
(** * Digits, [strftime] and [strptime] *)
(* ===================================================================== *)

Lemma digit_char_is_nat (k : Z) :
  0 ≤ k ≤ 9 → Ascii.is_nat (digit_char k) = Some (Z.to_nat k).
Proof.
  intros H.
  assert (k = 0 ∨ k = 1 ∨ k = 2 ∨ k = 3 ∨ k = 4 ∨ k = 5 ∨ k = 6 ∨ k = 7
          ∨ k = 8 ∨ k = 9) as Hk by lia.
  repeat (destruct Hk as [->|Hk]; [reflexivity|]). by subst.
Qed.

Lemma is_nat_not_space (a : ascii) (n : nat) :
  Ascii.is_nat a = Some n → isspace a = false ∧ a ≠ " "%char.
Proof. destruct a as [[] [] [] [] [] [] [] []]; cbn; done. Qed.

Lemma digit_char_not_space (k : Z) :
  0 ≤ k ≤ 9 → isspace (digit_char k) = false.
Proof. intros H. by eapply is_nat_not_space, digit_char_is_nat. Qed.

Lemma span_digits_end (s : string) :
  digits_end s → span_digits s = (EmptyString, s).
Proof. destruct s as [|c s]; cbn; [done|]. by intros ->. Qed.

Lemma span_digits_put2 (n : Z) (rest : string) :
  0 ≤ n ≤ 99 → digits_end rest →
  span_digits (put2 n rest) = (put2 n EmptyString, rest).
Proof.
  intros Hn Hrest. unfold put2. cbn [span_digits].
  rewrite !digit_char_is_nat by lia.
  by rewrite (span_digits_end rest Hrest).
Qed.

Lemma digits_value_put2 (acc n : Z) :
  0 ≤ n ≤ 99 → digits_value_from acc (put2 n EmptyString) = acc * 100 + n.
Proof.
  intros Hn. unfold put2. cbn [digits_value_from].
  rewrite !digit_char_is_nat by lia. unfold default, from_option, id. lia.
Qed.

Lemma number_field_put2 (lo hi n : Z) (rest : string) :
  0 ≤ n ≤ 99 → lo ≤ n ≤ hi → digits_end rest →
  number_field lo hi (put2 n rest) = Some (n, rest).
Proof.
  intros Hn Hr Hrest. unfold number_field.
  rewrite span_digits_put2 by done. unfold digits_value.
  rewrite digits_value_put2 by done.
  rewrite bool_decide_eq_true_2 by (cbn; lia).
  rewrite bool_decide_eq_true_2 by lia. reflexivity.
Qed.

Lemma year_field_put4 (y : Z) (rest : string) :
  0 ≤ y ≤ 9999 → digits_end rest →
  year_field (put4 y rest) = Some (y, rest).
Proof.
  intros Hy Hrest. unfold year_field, put4.
  assert (0 ≤ y `div` 100 ≤ 99 ∧ 0 ≤ y `mod` 100 ≤ 99) as [H1 H2] by lia.
  assert (span_digits (put2 (y `div` 100) (put2 (y `mod` 100) rest))
          = (put2 (y `div` 100) (put2 (y `mod` 100) EmptyString), rest))
    as ->.
  { unfold put2. cbn [span_digits].
    rewrite !digit_char_is_nat by lia.
    by rewrite (span_digits_end rest Hrest). }
  rewrite bool_decide_eq_true_2 by reflexivity.
  unfold digits_value. do 3 f_equal.
  unfold put2 at 1. cbn [digits_value_from].
  rewrite !digit_char_is_nat by lia. unfold default, from_option, id.
  rewrite digits_value_put2 by done. lia.
Qed.

Lemma day_field_put2 (n : Z) (rest : string) :
  0 ≤ n ≤ 99 → 1 ≤ n ≤ 31 → digits_end rest →
  day_field (put2 n rest) = Some (n, rest).
Proof.
  intros Hn Hr Hrest.
  rewrite <- (number_field_put2 1 31 n rest) by done.
  unfold day_field, put2.
  assert (0 ≤ n `div` 10 ≤ 9) as Hk by lia.
  destruct (is_nat_not_space _ _ (digit_char_is_nat _ Hk)) as [_ Hne].
  destruct (digit_char (n `div` 10)) as [[] [] [] [] [] [] [] []];
    done.
Qed.

Lemma literal_same (c : ascii) (rest : string) :
  literal c (String c rest) = Some rest.
Proof. unfold literal. by rewrite Ascii.eqb_refl. Qed.

(** [isoformat_seconds] writes no white space. *)
Lemma isoformat_no_white (d : datetime) :
  valid_datetime d = true → no_white (isoformat_seconds d) = true.
Proof.
  unfold valid_datetime. rewrite !andb_true_iff, !bool_decide_eq_true.
  intros (((((([Hy1 Hy2] & [Hm1 Hm2]) & [Hd1 Hd2]) & HH) & HM) & HS) & _).
  assert (days_in_month (year d) (month d) ≤ 31) as Hdim.
  { unfold days_in_month. destruct (_ && _); [lia|].
    repeat match goal with
           | |- context [match ?x with _ => _ end] => destruct x
           end; lia. }
  unfold isoformat_seconds, put4, put2. cbn [no_white].
  rewrite !digit_char_not_space by lia. reflexivity.
Qed.

Lemma isoformat_nonempty (d : datetime) : isoformat_seconds d ≠ EmptyString.
Proof. done. Qed.

(** [strptime] reads back what [strftime] wrote, for a date from the
    year 1000 on without microseconds. *)
Lemma strptime_isoformat (d : datetime) :
  valid_datetime d = true → 1000 ≤ year d → microsecond d = 0 →
  strptime (isoformat_seconds d) = Ok d.
Proof.
  intros Hvalid Hy Hus.
  pose proof Hvalid as Hv. unfold valid_datetime in Hv.
  rewrite !andb_true_iff, !bool_decide_eq_true in Hv.
  destruct Hv as (((((([Hy1 Hy2] & [Hm1 Hm2]) & [Hd1 Hd2]) & HH) & HM) & HS) & _).
  assert (days_in_month (year d) (month d) ≤ 31) as Hdim.
  { unfold days_in_month. destruct (_ && _); [lia|].
    repeat match goal with
           | |- context [match ?x with _ => _ end] => destruct x
           end; lia. }
  unfold strptime, match_format, isoformat_seconds.
  rewrite year_field_put4 by (done || lia). cbn [mbind option_bind].
  rewrite literal_same. cbn [mbind option_bind].
  rewrite number_field_put2 by (done || lia). cbn [mbind option_bind].
  rewrite literal_same. cbn [mbind option_bind].
  rewrite day_field_put2 by (done || lia). cbn [mbind option_bind].
  rewrite literal_same. cbn [mbind option_bind].
  rewrite number_field_put2 by (done || lia). cbn [mbind option_bind].
  rewrite literal_same. cbn [mbind option_bind].
  rewrite number_field_put2 by (done || lia). cbn [mbind option_bind].
  rewrite literal_same. cbn [mbind option_bind].
  rewrite number_field_put2 by (done || lia). cbn [mbind option_bind].
  rewrite bool_decide_eq_true_2 by done.
  assert ({| year := year d; month := month d; day := day d;
             hour := hour d; minute := minute d; second := second d;
             microsecond := 0 |} = d) as ->.
  { destruct d; cbn in *; by subst. }
  by rewrite Hvalid.
Qed.

(* ===================================================================== *)
(** * Elapsed time *)
(* ===================================================================== *)

Lemma total_microseconds_mk (days seconds microseconds : Z) :
  total_microseconds (mk_timedelta days seconds microseconds)
  = (days * 86400 + seconds) * 1000000 + microseconds.
Proof. unfold total_microseconds, mk_timedelta. cbn. lia. Qed.

(** The span between two dates, from their fields. *)
Lemma total_microseconds_sub (a b : datetime) :
  total_microseconds (datetime_sub a b)
  = ((toordinal a - toordinal b) * 86400
     + (seconds_of_day a - seconds_of_day b)) * 1000000
    + (microsecond a - microsecond b).
Proof. apply total_microseconds_mk. Qed.

(** The number compared with 3600 at line 140 is the elapsed time in
    whole seconds, rounded down. *)
Lemma elapsed_seconds_floor (td : timedelta) :
  0 ≤ td_microseconds td < 1000000 →
  td_days td * 86400 + td_seconds td = total_microseconds td `div` 1000000.
Proof. unfold total_microseconds. lia. Qed.

Lemma fresh_iff (now ts : datetime) :
  fresh now ts = true
  ↔ total_microseconds (datetime_sub now ts) < 3601000000.
Proof.
  unfold fresh. rewrite bool_decide_eq_true, elapsed_seconds_floor.
  - lia.
  - unfold datetime_sub, mk_timedelta. cbn. lia.
Qed.

Lemma days_before_month_bounds (y m : Z) :
  0 ≤ days_before_month y m ≤ 335.
Proof.
  unfold days_before_month. destruct (_ && _).
  all: repeat match goal with
              | |- context [match ?x with _ => _ end] => destruct x
              end; lia.
Qed.

Lemma days_in_month_bound (y m : Z) : days_in_month y m ≤ 31.
Proof.
  unfold days_in_month. destruct (_ && _); [lia|].
  repeat match goal with
         | |- context [match ?x with _ => _ end] => destruct x
         end; lia.
Qed.

Lemma valid_datetime_fields (d : datetime) :
  valid_datetime d = true →
  1 ≤ year d ≤ 9999 ∧ 1 ≤ month d ≤ 12 ∧ 1 ≤ day d ≤ 31
  ∧ 0 ≤ hour d ≤ 23 ∧ 0 ≤ minute d ≤ 59 ∧ 0 ≤ second d ≤ 59
  ∧ 0 ≤ microsecond d ≤ 999999.
Proof.
  unfold valid_datetime. rewrite !andb_true_iff, !bool_decide_eq_true.
  pose proof (days_in_month_bound (year d) (month d)). lia.
Qed.

(** A date at most an hour before a moment of 1970 or later is not before
    1900, so [strftime] takes it. *)
Lemma recent_year (now ts : datetime) :
  valid_datetime now = true → 1970 ≤ year now →
  valid_datetime ts = true →
  total_microseconds (datetime_sub now ts) ≤ 3600000000 →
  1900 ≤ year ts.
Proof.
  intros Hn%valid_datetime_fields Hy Ht%valid_datetime_fields.
  rewrite total_microseconds_sub. unfold toordinal, seconds_of_day.
  pose proof (days_before_month_bounds (year now) (month now)).
  pose proof (days_before_month_bounds (year ts) (month ts)).
  unfold days_before_year. intros Hspan.
  destruct (decide (1900 ≤ year ts)) as [|Hlt]; [done|]. exfalso.
  assert (year ts - 1 ≤ 1898) as Hy1 by lia.
  assert (1969 ≤ year now - 1) as Hy2 by lia.
  revert Hspan Hy1 Hy2.
  generalize (year ts - 1), (year now - 1). intros yt yn. lia.
Qed.

(* ===================================================================== *)
(** * Properties of [loadCache] and [writeCache] *)
(* ===================================================================== *)


Lemma parse_cache_line_written (kitten : string) (ts : datetime) :
  writable (kitten, ts) →
  parse_cache_line (entry_text (kitten, ts)) = Ok (kitten, ts).
Proof.
  intros (Hsp & _ & Hv & Hus & Hy). cbn in *.
  pose proof (isoformat_no_white ts Hv) as Hnw.
  unfold parse_cache_line, entry_text. cbn [fst snd].
  rewrite split_at_sep by done.
  rewrite split_no_sep.
  - rewrite strip_line by done.
    rewrite strptime_isoformat by (done || lia). reflexivity.
  - rewrite has_char_app, (no_white_has_char space) by done. reflexivity.
Qed.


Lemma readlines_written (entries : list (string * datetime)) :
  Forall writable entries →
  readlines (concat_str (entry_text <$> entries)) = entry_text <$> entries.
Proof.
  induction 1 as [|[kitten ts] entries Hw _ IH]; [reflexivity|].
  destruct Hw as (_ & Hnl & Hv & _). cbn in Hnl, Hv.
  unfold concat_str in *. cbn [fmap list_fmap foldr].
  change (list_fmap _ _ entry_text entries) with (entry_text <$> entries).
  unfold entry_text at 1 3. cbn [fst snd].
  assert (∀ more,
    (kitten +:+ String space
       (isoformat_seconds ts +:+ String newline EmptyString)) +:+ more
    = (kitten +:+ String space (isoformat_seconds ts))
      +:+ String newline more) as Hshape.
  { intros more. rewrite !app_assoc_str, !app_String, !app_assoc_str.
    reflexivity. }
  rewrite Hshape, readlines_line, IH.
  - f_equal. by rewrite <- (Hshape EmptyString), app_empty_r.
  - rewrite has_char_app. cbn [has_char].
    rewrite Hnl, (no_white_has_char newline) by (done || by apply isoformat_no_white).
    reflexivity.
Qed.

Lemma loadCache_loop_written (clock : nat → datetime)
    (entries : list (string * datetime)) :
  Forall writable entries →
  Forall (λ entry, ∀ n, fresh (clock n) entry.2 = true) entries →
  ∀ n result,
    loadCache_loop clock n (entry_text <$> entries) result
    = Ok (foldl (λ m entry, <[entry.1 := entry.2]> m) result entries).
Proof.
  induction 1 as [|[kitten ts] entries Hw _ IH]; intros Hfresh n result;
    [reflexivity|].
  apply Forall_cons in Hfresh as [Hf Hfresh]. cbn in Hf.
  cbn [fmap list_fmap loadCache_loop foldl].
  rewrite (parse_cache_line_written _ _ Hw), Hf.
  apply (IH Hfresh).
Qed.

Lemma foldl_insert_union {V} (entries : list (string * V))
    (acc : gmap string V) :
  NoDup entries.*1 →
  foldl (λ m entry, <[entry.1 := entry.2]> m) acc entries
  = list_to_map entries ∪ acc.
Proof.
  revert acc. induction entries as [|[k v] entries IH]; intros acc Hnd.
  - cbn. by rewrite (left_id_L ∅ (∪)).
  - cbn in Hnd. apply NoDup_cons in Hnd as [Hk Hnd].
    cbn [foldl fst snd]. rewrite (IH _ Hnd). cbn [list_to_map foldr].
    rewrite <- insert_union_l.
    by rewrite insert_union_r by by apply not_elem_of_list_to_map_1.
Qed.

(** At the boundary: an entry exactly 3600 seconds old is kept, one of
    3601 seconds is dropped. *)
Example loadCache_3600_seconds_kept :
  loadCache (λ _, an_hour_later) (Some one_entry_file)
  = Ok {[ "a" := midnight ]}.
Proof. vm_compute. reflexivity. Qed.

Example loadCache_3601_seconds_dropped :
  loadCache (λ _, an_hour_and_a_second_later) (Some one_entry_file) = Ok ∅.
Proof. vm_compute. reflexivity. Qed.

(** C4 as stated fails: the entry below is 3600.5 seconds old when it is
    read, more than 3600 seconds, and [loadCache] keeps it. *)
Lemma C4_older_than_3600_seconds_kept :
  let content := one_entry_file in
  let clock := λ _ : nat, an_hour_and_a_half_second_later in
  3600 * 1000000 < total_microseconds (datetime_sub (clock 0%nat) midnight)
  ∧ ∃ cache, loadCache clock (Some content) = Ok cache
             ∧ cache !! "a" = Some midnight.
Proof.
  cbn zeta. split; [reflexivity|].
  eexists. split; [vm_compute; reflexivity|]. reflexivity.
Qed.



(* ===================================================================== *)
(** * More on the candidate filter *)
(* ===================================================================== *)

Lemma extends_refl (st : MainState) : extends st st [] [].
Proof. unfold extends. by rewrite !app_nil_r. Qed.

Lemma extends_trans st1 st2 st3 added1 logs1 added2 logs2 :
  extends st1 st2 added1 logs1 → extends st2 st3 added2 logs2 →
  extends st1 st3 (added1 ++ added2) (logs1 ++ logs2).
Proof.
  intros (Hq1 & Hr1 & Hl1) (Hq2 & Hr2 & Hl2). unfold extends.
  rewrite Hq2, Hr2, Hl2, Hq1, Hr1, Hl1. by rewrite <- !app_assoc.
Qed.

Lemma extends_log st e : extends st (log_entry e st) [] [e].
Proof. unfold extends, log_entry. cbn. by rewrite !app_nil_r. Qed.

Lemma extends_enqueue st k : extends st (enqueue k st) [k] [].
Proof. unfold extends, enqueue. cbn. by rewrite !app_nil_r. Qed.

(** What one line does is the same from every state: it raises, or it
    adds at most one job and some log records. *)
Lemma filter_item_effect {V} slaves (seenCache : gmap string V) reFilter
    force item :
  (∃ e, ∀ st, filter_item slaves seenCache reFilter force item st = Raise e)
  ∨ (∃ added logs, ∀ st, ∃ st',
       filter_item slaves seenCache reFilter force item st = Ok st'
       ∧ extends st st' added logs).
Proof.
  unfold filter_item, parse_item.
  destruct (extract_kitten item) as [kitten|];
    [|right; exists [], [Error ("unable to parse line [" +:+ item +:+ "]")];
      intros st; eexists; split; [done|apply extends_log]].
  assert ((∃ e, ∀ st,
             dispatch_kitten slaves seenCache force kitten st = Raise e)
          ∨ (∃ added logs, ∀ st, ∃ st',
               dispatch_kitten slaves seenCache force kitten st = Ok st'
               ∧ extends st st' added logs)) as Hd.
  { unfold dispatch_kitten, getitem.
    destruct (slaves !! kitten) as [slave|]; [|left; by eexists].
    right. cbn. destruct (negb (enabled slave)).
    { do 2 eexists. intros st. eexists. split; [done|apply extends_log]. }
    destruct (bool_decide _).
    { do 2 eexists. intros st. eexists. split; [done|apply extends_log]. }
    destruct (in_dict kitten seenCache); [destruct force|].
    - do 2 eexists. intros st. eexists. split; [done|].
      eapply extends_trans; [apply extends_log|apply extends_enqueue].
    - do 2 eexists. intros st. eexists. split; [done|apply extends_log].
    - do 2 eexists. intros st. eexists. split; [done|apply extends_enqueue]. }
  destruct reFilter as [search|]; [|done].
  destruct (search kitten) as [[]|]; [done| |].
  - right. exists [], []. intros st. eexists. split; [done|apply extends_refl].
  - right. do 2 eexists. intros st. eexists. split; [done|apply extends_log].
Qed.

Lemma filter_loop_effect {V} slaves (seenCache : gmap string V) reFilter
    force items :
  ∃ exc added logs, ∀ st, ∃ st',
    filter_loop slaves seenCache reFilter force items st = (st', exc)
    ∧ extends st st' added logs.
Proof.
  induction items as [|item rest (exc & added & logs & IH)].
  - exists None, [], []. intros st. exists st. split; [done|apply extends_refl].
  - destruct (filter_item_effect slaves seenCache reFilter force item)
      as [[e He]|(added1 & logs1 & H1)].
    + exists (Some e), [], []. intros st. exists st. cbn. rewrite He.
      split; [done|apply extends_refl].
    + exists exc, (added1 ++ added), (logs1 ++ logs). intros st.
      destruct (H1 st) as (st1 & Hst1 & Hext1).
      destruct (IH st1) as (st' & Hst' & Hext).
      exists st'. cbn. rewrite Hst1. split; [done|].
      by eapply extends_trans.
Qed.

(** What a line that adds a job says about that job. *)
Lemma filter_item_enqueues {V} slaves (seenCache : gmap string V) reFilter
    force item st st' :
  filter_item slaves seenCache reFilter force item st = Ok st' →
  workQueue st' = workQueue st
  ∨ (∃ kitten,
       workQueue st' = workQueue st ++ [kitten]
       ∧ extract_kitten item = Some kitten
       ∧ (force = false → seenCache !! kitten = None)
       ∧ (∀ search, reFilter = Some search → search kitten = Some true)).
Proof.
  unfold filter_item, parse_item.
  destruct (extract_kitten item) as [kitten|]; [|intros [= <-]; by left].
  assert (∀ st0, dispatch_kitten slaves seenCache force kitten st0 = Ok st' →
            workQueue st' = workQueue st0
            ∨ (workQueue st' = workQueue st0 ++ [kitten]
               ∧ (force = false → seenCache !! kitten = None))) as Hd.
  { intros st0. unfold dispatch_kitten, getitem, in_dict.
    destruct (slaves !! kitten) as [slave|]; [|done]. cbn.
    destruct (negb (enabled slave)); [intros [= <-]; by left|].
    destruct (bool_decide (0 < _)); [intros [= <-]; by left|].
    destruct (bool_decide (is_Some _)) eqn:Hc.
    - destruct force; intros [= <-]; cbn;
        [right; split; [done|discriminate]|by left].
    - intros [= <-]. right. split; [done|]. intros _.
      apply bool_decide_eq_false in Hc. by apply eq_None_not_Some. }
  destruct reFilter as [search|].
  - destruct (search kitten) as [[]|] eqn:Hs.
    + intros [H|[H1 H2]]%Hd; [by left|right].
      exists kitten. repeat split; try done. by intros ? [= <-].
    + intros [= <-]. by left.
    + intros [= <-]. by left.
  - intros [H|[H1 H2]]%Hd; [by left|right].
    exists kitten. repeat split; done.
Qed.

Lemma filter_loop_enqueued {V} slaves (seenCache : gmap string V) reFilter
    force items st kitten :
  kitten ∈ workQueue (filter_loop slaves seenCache reFilter force items st).1 →
  kitten ∈ workQueue st
  ∨ ((∃ item, item ∈ items ∧ extract_kitten item = Some kitten)
     ∧ (force = false → seenCache !! kitten = None)
     ∧ (∀ search, reFilter = Some search → search kitten = Some true)).
Proof.
  revert st. induction items as [|item rest IH]; intros st; cbn; [auto|].
  destruct (filter_item _ _ _ _ _ _) as [st'|e] eqn:Hi; cbn; [|auto].
  intros [Hin|((it & Hit & Hex) & Hf & Hs)]%IH.
  - apply filter_item_enqueues in Hi as [Hq|(k & Hq & Hk & Hf & Hs)];
      rewrite Hq in Hin; [auto|].
    apply elem_of_app in Hin as [?|Hin]; [auto|].
    apply list_elem_of_singleton in Hin as ->. right.
    split; [|done]. exists item. split; [apply elem_of_cons; by left|done].
  - right. split; [|done]. exists it.
    split; [apply elem_of_cons; by right|done].
Qed.

Lemma filter_loop_sublist {V} slaves (seenCache : gmap string V) reFilter
    force items st :
  ∃ added,
    workQueue (filter_loop slaves seenCache reFilter force items st).1
    = workQueue st ++ added
    ∧ sublist added (omap extract_kitten items).
Proof.
  revert st. induction items as [|item rest IH]; intros st; cbn.
  - exists []. by rewrite app_nil_r.
  - destruct (filter_item _ _ _ _ _ _) as [st'|e] eqn:Hi; cbn.
    + destruct (IH st') as (added & Hq & Hsub). rewrite Hq.
      apply filter_item_enqueues in Hi as [->|(k & -> & Hk & _)].
      * exists added. split; [done|].
        destruct (extract_kitten item); [by apply sublist_cons|done].
      * exists (k :: added). rewrite <- app_assoc. split; [done|].
        rewrite Hk. by apply sublist_skip.
    + exists []. rewrite app_nil_r. split; [done|apply sublist_nil_l].
Qed.

Lemma in_dict_empty {V} (key : string) : in_dict key (∅ : gmap string V) = false.
Proof.
  unfold in_dict. apply bool_decide_eq_false. rewrite lookup_empty.
  by intros [? ?].
Qed.

(** With [--force] a line has the effect it has without it on an empty
    seen cache, up to what is logged. *)
Lemma filter_item_force_as_empty {V} slaves (seenCache : gmap string V)
    reFilter item :
  (∃ e, (∀ st, filter_item slaves seenCache reFilter true item st = Raise e)
        ∧ (∀ st, filter_item slaves (∅ : gmap string V) reFilter false item st
                 = Raise e))
  ∨ (∃ added logs1 logs2,
       (∀ st, ∃ st',
          filter_item slaves seenCache reFilter true item st = Ok st'
          ∧ extends st st' added logs1)
       ∧ (∀ st, ∃ st',
            filter_item slaves (∅ : gmap string V) reFilter false item st
            = Ok st'
            ∧ extends st st' added logs2)).
Proof.
  unfold filter_item, parse_item.
  destruct (extract_kitten item) as [kitten|];
    [|right; exists [], [Error ("unable to parse line [" +:+ item +:+ "]")],
        [Error ("unable to parse line [" +:+ item +:+ "]")];
      split; intros st; eexists; (split; [done|apply extends_log])].
  assert ((∃ e, (∀ st, dispatch_kitten slaves seenCache true kitten st
                       = Raise e)
                ∧ (∀ st, dispatch_kitten slaves (∅ : gmap string V) false
                           kitten st = Raise e))
          ∨ (∃ added logs1 logs2,
               (∀ st, ∃ st',
                  dispatch_kitten slaves seenCache true kitten st = Ok st'
                  ∧ extends st st' added logs1)
               ∧ (∀ st, ∃ st',
                    dispatch_kitten slaves (∅ : gmap string V) false kitten st
                    = Ok st'
                    ∧ extends st st' added logs2))) as Hd.
  { unfold dispatch_kitten, getitem. rewrite in_dict_empty.
    destruct (slaves !! kitten) as [slave|]; [|left; by eexists].
    right. cbn. destruct (negb (enabled slave)).
    { do 3 eexists. split; intros st; eexists;
        (split; [done|apply extends_log]). }
    destruct (bool_decide _).
    { do 3 eexists. split; intros st; eexists;
        (split; [done|apply extends_log]). }
    destruct (in_dict kitten seenCache).
    - exists [kitten]. do 2 eexists. split; intros st; eexists.
      + split; [done|].
        eapply (extends_trans _ _ _ [] _ [kitten] []);
          [apply extends_log|apply extends_enqueue].
      + split; [done|apply extends_enqueue].
    - exists [kitten]. do 2 eexists. split; intros st; eexists;
        (split; [done|apply extends_enqueue]). }
  destruct reFilter as [search|]; [|done].
  destruct (search kitten) as [[]|]; [done| |].
  - right. exists [], [], []. split; intros st; eexists;
      (split; [done|apply extends_refl]).
  - right. do 3 eexists. split; intros st; eexists;
      (split; [done|apply extends_log]).
Qed.

Lemma filter_loop_force_as_empty {V} slaves (seenCache : gmap string V)
    reFilter items :
  ∃ exc added logs1 logs2,
    (∀ st, ∃ st',
       filter_loop slaves seenCache reFilter true items st = (st', exc)
       ∧ extends st st' added logs1)
    ∧ (∀ st, ∃ st',
         filter_loop slaves (∅ : gmap string V) reFilter false items st
         = (st', exc)
         ∧ extends st st' added logs2).
Proof.
  induction items as [|item rest (exc & added & logs1 & logs2 & IH1 & IH2)].
  - exists None, [], [], []. split; intros st; exists st;
      (split; [done|apply extends_refl]).
  - destruct (filter_item_force_as_empty slaves seenCache reFilter item)
      as [(e & He1 & He2)|(added0 & l1 & l2 & H1 & H2)].
    + exists (Some e), [], [], []. split; intros st; exists st; cbn;
        rewrite ?He1, ?He2; (split; [done|apply extends_refl]).
    + exists exc, (added0 ++ added), (l1 ++ logs1), (l2 ++ logs2).
      split; intros st.
      * destruct (H1 st) as (st1 & Hst1 & Hext1).
        destruct (IH1 st1) as (st' & Hst' & Hext).
        exists st'. cbn. rewrite Hst1. split; [done|].
        by eapply extends_trans.
      * destruct (H2 st) as (st1 & Hst1 & Hext1).
        destruct (IH2 st1) as (st' & Hst' & Hext).
        exists st'. cbn. rewrite Hst1. split; [done|].
        by eapply extends_trans.
Qed.

(** X1: what the filter loop does to its state does not depend on the
    state it starts from: it ends with the same exception (or none), puts
    the same jobs on the work queue and on the list of outstanding jobs,
    which therefore grow together, and logs the same records. *)
Theorem X1_filter_loop_effect {V} (slaves : gmap string Slave)
    (seenCache : gmap string V) (reFilter : option Pattern) (force : bool)
    (kittens : list string) :
  ∃ exc added logs, ∀ st, ∃ st',
    filter_loop slaves seenCache reFilter force kittens st = (st', exc)
    ∧ extends st st' added logs.
Proof. apply filter_loop_effect. Qed.

(** X2: without [--force], no identifier that is in the seen cache is put
    on the work queue, whatever the lines and the pattern. *)
Theorem X2_seen_never_enqueued_without_force {V} (slaves : gmap string Slave)
    (seenCache : gmap string V) (reFilter : option Pattern)
    (kittens : list string) (kitten : string) :
  is_Some (seenCache !! kitten) →
  kitten ∉ workQueue
    (filter_loop slaves seenCache reFilter false kittens initial_state).1.
Proof.
  intros [v Hv] [Hin|(_ & Hf & _)]%filter_loop_enqueued.
  - cbn in Hin. by apply elem_of_nil in Hin.
  - rewrite Hf in Hv; done.
Qed.

(** X3: when a pattern is configured, every identifier on the work queue
    is one on which the pattern's [search] found a match. *)
Theorem X3_enqueued_matches_pattern {V} (slaves : gmap string Slave)
    (seenCache : gmap string V) (search : Pattern) (force : bool)
    (kittens : list string) (kitten : string) :
  search kitten ≠ Some true →
  kitten ∉ workQueue
    (filter_loop slaves seenCache (Some search) force kittens
                 initial_state).1.
Proof.
  intros Hs [Hin|(_ & _ & Hm)]%filter_loop_enqueued.
  - cbn in Hin. by apply elem_of_nil in Hin.
  - by apply Hs, Hm.
Qed.

(** X4: the work queue holds identifiers of the input lines in the order
    of the lines: it is a sublist of the list of extracted identifiers. *)
Theorem X4_work_queue_keeps_input_order {V} (slaves : gmap string Slave)
    (seenCache : gmap string V) (reFilter : option Pattern) (force : bool)
    (kittens : list string) :
  sublist
    (workQueue
       (filter_loop slaves seenCache reFilter force kittens initial_state).1)
    (omap extract_kitten kittens).
Proof.
  destruct (filter_loop_sublist slaves seenCache reFilter force kittens
              initial_state) as (added & -> & Hsub).
  done.
Qed.

(** X5: lines are not checked against each other. When the loop gets
    through a list of lines, it gets through the list given twice and puts
    every accepted identifier on the work queue twice. *)
Theorem X5_repeated_lines_enqueued_again {V} (slaves : gmap string Slave)
    (seenCache : gmap string V) (reFilter : option Pattern) (force : bool)
    (kittens : list string) (st1 : MainState) :
  filter_loop slaves seenCache reFilter force kittens initial_state
  = (st1, None) →
  ∃ st2,
    filter_loop slaves seenCache reFilter force (kittens ++ kittens)
                initial_state = (st2, None)
    ∧ workQueue st2 = workQueue st1 ++ workQueue st1
    ∧ results st2 = results st1 ++ results st1.
Proof.
  intros Hrun. rewrite (filter_loop_app _ _ _ _ _ _ _ _ Hrun).
  destruct (filter_loop_effect slaves seenCache reFilter force kittens)
    as (exc & added & logs & Heff).
  destruct (Heff initial_state) as (st1' & Hrun' & Hq & Hr & _).
  rewrite Hrun in Hrun'. injection Hrun' as <- <-.
  destruct (Heff st1) as (st2 & Hrun2 & Hq2 & Hr2 & _).
  exists st2. cbn in Hq, Hr. rewrite Hq2, Hr2, Hq, Hr. done.
Qed.

(** X6: [--force] makes the seen cache irrelevant: the loop ends the same
    way and leaves the same work queue and outstanding jobs as a run
    without [--force] on an empty seen cache. *)
Theorem X6_force_is_an_empty_seen_cache {V} (slaves : gmap string Slave)
    (seenCache : gmap string V) (reFilter : option Pattern)
    (kittens : list string) :
  let forced :=
    filter_loop slaves seenCache reFilter true kittens initial_state in
  let fresh_start :=
    filter_loop slaves (∅ : gmap string V) reFilter false kittens
                initial_state in
  forced.2 = fresh_start.2
  ∧ workQueue forced.1 = workQueue fresh_start.1
  ∧ results forced.1 = results fresh_start.1.
Proof.
  destruct (filter_loop_force_as_empty slaves seenCache reFilter kittens)
    as (exc & added & logs1 & logs2 & H1 & H2).
  destruct (H1 initial_state) as (st1 & -> & Hq1 & Hr1 & _).
  destruct (H2 initial_state) as (st2 & -> & Hq2 & Hr2 & _).
  cbn. by rewrite Hq1, Hr1, Hq2, Hr2.
Qed.

Lemma split_trailing_sep (c : ascii) (s : string) :
  split c (s +:+ String c EmptyString) = split c s ++ [EmptyString].
Proof.
  induction s as [|a s IH].
  - rewrite app_empty_l. cbn. by rewrite Ascii.eqb_refl.
  - rewrite app_String. cbn [split]. rewrite IH.
    destruct (Ascii.eqb a c); [done|].
    pose proof (split_nonempty c s). by destruct (split c s).
Qed.

(** X7: a candidate list fetched from a URL is cut at the newlines, so a
    body that ends with a newline gives a last, empty line. With no
    pattern configured and no inventory entry of the empty name, the
    filter loop goes through the lines before it and then ends with
    [KeyError] on the empty identifier. *)
Theorem X7_url_body_ending_in_newline_aborts {V}
    (fetchUrl files : string → option string) (source body : string)
    (slaves : gmap string Slave) (seenCache : gmap string V) (force : bool)
    (st st1 : MainState) :
  startswith "http://" (lower source) = true →
  fetchUrl source = Some (body +:+ String newline EmptyString) →
  slaves !! EmptyString = None →
  filter_loop slaves seenCache None force (split newline body) st
  = (st1, None) →
  ∃ lines,
    candidate_lines fetchUrl files source = Some lines
    ∧ filter_loop slaves seenCache None force lines st
      = (st1, Some (KeyError EmptyString)).
Proof.
  intros Hhttp Hfetch Hnone Hrun.
  exists (split newline body ++ [EmptyString]). split.
  - unfold candidate_lines. by rewrite Hhttp, Hfetch, split_trailing_sep.
  - rewrite (filter_loop_app _ _ _ _ _ _ _ _ Hrun). cbn.
    unfold filter_item, parse_item, dispatch_kitten, getitem. cbn.
    by rewrite Hnone.
Qed.

Lemma build_slaves_from_other (name : string) (slavelist : list SlaveItem) :
  Forall (λ i, item_name i ≠ name) slavelist →
  ∀ acc : gmap string Slave,
    foldl (λ slaves item, <[item_name item := slave_of_item item]> slaves)
          acc slavelist !! name
    = acc !! name.
Proof.
  induction 1 as [|item rest Hne _ IH]; intros acc; [done|].
  cbn [foldl]. rewrite IH. by apply lookup_insert_ne.
Qed.

(** X8: in the inventory built from the slavealloc list, a name stands for
    the last item of that name, with a missing note turned into the empty
    string. *)
Theorem X8_inventory_last_item_wins (before after : list SlaveItem)
    (item : SlaveItem) :
  Forall (λ i, item_name i ≠ item_name item) after →
  build_slaves (before ++ item :: after) !! item_name item
  = Some (slave_of_item item).
Proof.
  intros Hafter. unfold build_slaves. rewrite foldl_app. cbn [foldl].
  change (λ slaves item0,
            <[item_name item0 :=
                {| enabled := item_enabled item0;
                   notes := default EmptyString (item_notes item0) |}]> slaves)
    with (λ slaves item0,
            <[item_name item0 := slave_of_item item0]> (slaves : gmap string Slave)).
  rewrite (build_slaves_from_other _ _ Hafter). apply lookup_insert_eq.
Qed.

Lemma X2_seen_never_enqueued_without_force_witness :
  "a" ∉ workQueue
    (filter_loop example_slaves ({[ "a" := midnight ]} : gmap string datetime)
                 None false ["a,Yes"; "b,Yes"; "a,Yes"] initial_state).1.
Proof.
  apply (X2_seen_never_enqueued_without_force example_slaves
           {[ "a" := midnight ]} None ["a,Yes"; "b,Yes"; "a,Yes"] "a").
  exists midnight. reflexivity.
Defined.

Lemma X3_enqueued_matches_pattern_witness :
  "a" ∉ workQueue
    (filter_loop example_slaves (∅ : gmap string datetime) (Some talos_only)
                 true ["a,Yes"; "b,Yes"] initial_state).1.
Proof.
  apply (X3_enqueued_matches_pattern example_slaves ∅ talos_only true
           ["a,Yes"; "b,Yes"] "a").
  discriminate.
Defined.

Lemma X5_repeated_lines_enqueued_again_witness :
  ∃ st2,
    filter_loop example_slaves (∅ : gmap string datetime) None false
                (["a,Yes"; "b,Yes"] ++ ["a,Yes"; "b,Yes"]) initial_state
    = (st2, None)
    ∧ workQueue st2 = ["a"] ++ ["a"]
    ∧ results st2 = ["a"] ++ ["a"].
Proof.
  apply (X5_repeated_lines_enqueued_again example_slaves ∅ None false
           ["a,Yes"; "b,Yes"]
           {| workQueue := ["a"]; results := ["a"];
              logged := [Info "b is not enabled, skipping"] |}).
  reflexivity.
Defined.

Lemma X7_url_body_ending_in_newline_aborts_witness :
  ∃ lines,
    candidate_lines example_fetchUrl (λ _, None) example_url = Some lines
    ∧ filter_loop example_slaves (∅ : gmap string datetime) None false lines
                  initial_state
      = ({| workQueue := ["a"]; results := ["a"]; logged := [] |},
         Some (KeyError EmptyString)).
Proof.
  apply (X7_url_body_ending_in_newline_aborts example_fetchUrl (λ _, None)
           example_url "a,Yes" example_slaves ∅ false initial_state
           {| workQueue := ["a"]; results := ["a"]; logged := [] |}).
  - reflexivity.
  - reflexivity.
  - reflexivity.
  - reflexivity.
Defined.

Lemma X8_inventory_last_item_wins_witness :
  build_slaves
    ([ {| item_name := "a"; item_enabled := true; item_notes := None |} ]
     ++ {| item_name := "a"; item_enabled := false;
           item_notes := Some "broken disk" |}
     :: [ {| item_name := "b"; item_enabled := true; item_notes := None |} ])
    !! "a"
  = Some {| enabled := false; notes := "broken disk" |}.
Proof.
  apply (X8_inventory_last_item_wins
           [ {| item_name := "a"; item_enabled := true; item_notes := None |} ]
           [ {| item_name := "b"; item_enabled := true; item_notes := None |} ]
           {| item_name := "a"; item_enabled := false;
              item_notes := Some "broken disk" |}).
  repeat constructor. discriminate.
Defined.

(* ===================================================================== *)
(** * More on [checkKitten] *)
(* ===================================================================== *)

Lemma occurrences_app (e : Event) (l1 l2 : list Event) :
  occurrences e (l1 ++ l2) = (occurrences e l1 + occurrences e l2)%nat.
Proof. unfold occurrences. by rewrite filter_app, length_app. Qed.

Lemma polls_S (k : nat) : polls (S k) = [EvTail 5; EvSleep 5] ++ polls k.
Proof. reflexivity. Qed.

Lemma occurrences_polls_sleep (k : nat) :
  occurrences (EvSleep 5) (polls k) = k.
Proof.
  induction k as [|k IH]; [reflexivity|].
  rewrite polls_S, occurrences_app, IH. reflexivity.
Qed.

Lemma occurrences_polls_reboot (k : nat) :
  occurrences EvReboot (polls k) = 0%nat.
Proof.
  induction k as [|k IH]; [reflexivity|].
  rewrite polls_S, occurrences_app, IH. reflexivity.
Qed.

Lemma elem_of_polls (k : nat) (e : Event) :
  e ∈ polls k → e = EvTail 5 ∨ e = EvSleep 5.
Proof.
  induction k as [|k IH]; [by intros ?%elem_of_nil|].
  rewrite polls_S. intros [H|H]%elem_of_app; [|auto].
  apply elem_of_cons in H as [->|H]; [auto|].
  apply list_elem_of_singleton in H as ->. auto.
Qed.

(** The events of the shutdown loop entered with [count = 29 - r]: some
    [k <= r] polls with their sleeps, then the reboot or, after [r] polls,
    the giving up. *)
Lemma poll_loop_shape (remote : Remote) (r : nat) : ∀ count tr,
  count = 29 - Z.of_nat r →
  ∃ (k : nat) (final : list Event),
    (k ≤ r)%nat
    ∧ (∀ fuel, (k < fuel)%nat →
         poll_loop remote fuel count tr
         = (Some (), (tr ++ polls k) ++ final))
    ∧ (final = rebooting
       ∨ (k = r ∧ final = giving_up remote (tr ++ polls k))).
Proof.
  induction r as [|r IH]; intros count tr Hc.
  - exists 0%nat, (giving_up remote tr). split; [lia|].
    cbn [polls replicate concat]. rewrite app_nil_r. split; [|by right].
    intros [|fuel] ?; [lia|].
    by rewrite poll_loop_S, poll_body_gives_up by lia.
  - destruct (shutdown_seen (log_tail remote tr 5)) eqn:Hseen.
    + exists 0%nat, rebooting. split; [lia|].
      cbn [polls replicate concat]. rewrite app_nil_r. split; [|by left].
      intros [|fuel] ?; [lia|].
      by rewrite poll_loop_S, poll_body_reboots by (done || lia).
    + destruct (IH (count + 1) (tr ++ [EvTail 5; EvSleep 5]))
        as (k & final & Hk & Hrun & Hfinal); [lia|].
      exists (S k), final. split; [lia|].
      rewrite polls_S, app_assoc. split.
      * intros [|fuel] ?; [lia|].
        rewrite poll_loop_S, poll_body_sleeps by (done || lia).
        apply Hrun. lia.
      * destruct Hfinal as [?|[-> ?]]; [by left|by right].
Qed.

(** The ways through [checkKitten], each with the answers of the remote
    side that lead to it and the trace it leaves. *)
Lemma checkKitten_paths (remote : Remote) (fuel : nat) (hostname : string)
    (o : options.t) (tr : list Event) :
  (30 ≤ fuel)%nat →
  let first := if str_in "tegra" hostname then EvReboot else EvWait in
  let t0 := tr ++ [EvLog "checking kitten %s" [hostname]] in
  let t1 := t0 ++ [EvConnect hostname (options.username o)
                             (options.password o)] in
  let t2 := t1 ++ [first] in
  let t3 := t2 ++ [EvFindTacfiles] in
  let t4 := t3 ++ [EvTail 10] in
  let t5 := t4 ++ [EvGracefulShutdown] in
  let t6 := t5 ++ [EvLog "Waiting for shutdown" []] in
  let run := checkKitten remote fuel hostname o tr in
  (options.dryrun o = true ∧ run = (Some (), t0))
  ∨ (options.dryrun o = false ∧ slave_present remote t0 = false
     ∧ run = (Some (), t1))
  ∨ (options.dryrun o = false ∧ slave_present remote t0 = true
     ∧ ("buildbot.tac" ∉ tacfiles_found remote t2)
     ∧ ∃ fmt args,
         run = (Some (),
                (t3 ++ [EvLog "Found these tacfiles: %s"
                              (tacfiles_found remote t2)])
                ++ [EvLog fmt args]))
  ∨ (options.dryrun o = false ∧ slave_present remote t0 = true
     ∧ "buildbot.tac" ∈ tacfiles_found remote t2
     ∧ str_in "Stopping factory" (log_tail remote t3 10) = true
     ∧ run = (Some (),
              (t4 ++ [EvLog "Looks like the slave isn't connected; rebooting!"
                            []])
              ++ [EvReboot]))
  ∨ (options.dryrun o = false ∧ slave_present remote t0 = true
     ∧ "buildbot.tac" ∈ tacfiles_found remote t2
     ∧ str_in "Stopping factory" (log_tail remote t3 10) = false
     ∧ shutdown_accepted remote t4 = false
     ∧ run = (Some (),
              t5 ++ [EvLog "graceful_shutdown failed; aborting" []]))
  ∨ (options.dryrun o = false ∧ slave_present remote t0 = true
     ∧ "buildbot.tac" ∈ tacfiles_found remote t2
     ∧ str_in "Stopping factory" (log_tail remote t3 10) = false
     ∧ shutdown_accepted remote t4 = true
     ∧ ∃ (k : nat) (final : list Event),
         (k ≤ 29)%nat
         ∧ run = (Some (), (t6 ++ polls k) ++ final)
         ∧ (final = rebooting
            ∨ final = giving_up remote (t6 ++ polls k))).
Proof.
  intros Hfuel. cbv zeta. unfold checkKitten.
  unfold bind, log_info, emit, ret, RemoteSlave, find_buildbot_tacfiles,
    tail_twistd_log, graceful_shutdown.
  destruct (options.dryrun o); cbn [negb]; [by left|]. right.
  destruct (slave_present remote _); [|by left]. right.
  assert ((if str_in "tegra" hostname then reboot else wait)
          = emit (if str_in "tegra" hostname then EvReboot else EvWait))
    as -> by by destruct (str_in "tegra" hostname).
  unfold emit.
  destruct (bool_decide _) eqn:Htac; cbn [negb].
  2:{ left. apply bool_decide_eq_false in Htac.
      repeat split; try done.
      destruct (disabled_by_bug _); by do 2 eexists. }
  right. apply bool_decide_eq_true in Htac.
  destruct (str_in "Stopping factory" _) eqn:Hstop; [by left|]. right.
  destruct (shutdown_accepted remote _) eqn:Hacc; cbn [negb]; [|by left].
  right. repeat split; try done.
  match goal with
  | |- ∃ k final, _ ∧ poll_loop _ _ _ ?t = _ ∧ _ =>
      destruct (poll_loop_shape remote 29 0 t eq_refl)
        as (k & final & Hk & Hrun & Hfinal)
  end.
  exists k, final. split; [done|]. split; [apply Hrun; lia|].
  destruct Hfinal as [?|[_ ?]]; auto.
Qed.

Lemma slept_app (l1 l2 : list Event) : slept (l1 ++ l2) = slept l1 + slept l2.
Proof.
  induction l1 as [|e l1 IH]; [reflexivity|].
  cbn [app slept]. destruct e; rewrite IH; lia.
Qed.

Lemma slept_polls (k : nat) : slept (polls k) = 5 * Z.of_nat k.
Proof.
  induction k as [|k IH]; [reflexivity|].
  rewrite polls_S, slept_app, IH. cbn [slept]. lia.
Qed.

Lemma slept_giving_up (remote : Remote) (tr : list Event) :
  slept (giving_up remote tr) = 0.
Proof. unfold giving_up. by destruct (bool_decide _). Qed.

Lemma occurrences_reboot_giving_up (remote : Remote) (tr : list Event) :
  occurrences EvReboot (giving_up remote tr) = 0%nat.
Proof. unfold giving_up. by destruct (bool_decide _). Qed.

(** X9: under [--dryrun] nothing is done to the host: [checkKitten] logs
    the host name and returns, without a connection, a command or a sleep,
    and without entering the shutdown loop (any fuel will do). *)
Theorem X9_dryrun_touches_nothing (remote : Remote) (fuel : nat)
    (hostname : string) (o : options.t) (tr : list Event) :
  options.dryrun o = true →
  checkKitten remote fuel hostname o tr
  = (Some (), tr ++ [EvLog "checking kitten %s" [hostname]]).
Proof. intros Hdry. unfold checkKitten, bind. by rewrite Hdry. Qed.

(** X10: a host that is not a tegra is rebooted at most once by one call
    of [checkKitten], whatever the remote side answers. *)
Theorem X10_at_most_one_reboot (remote : Remote) (fuel : nat)
    (hostname : string) (o : options.t) (tr : list Event) :
  (30 ≤ fuel)%nat →
  str_in "tegra" hostname = false →
  ∃ evs,
    checkKitten remote fuel hostname o tr = (Some (), tr ++ evs)
    ∧ (occurrences EvReboot evs ≤ 1)%nat.
Proof.
  intros Hfuel Htegra.
  pose proof (checkKitten_paths remote fuel hostname o tr Hfuel) as Hp.
  cbv zeta in Hp. rewrite Htegra in Hp.
  destruct Hp as [(_ & ->)|[(_ & _ & ->)|[(_ & _ & _ & fmt & args & ->)|
    [(_ & _ & _ & _ & ->)|[(_ & _ & _ & _ & _ & ->)|
    (_ & _ & _ & _ & _ & k & final & _ & -> & Hfinal)]]]]];
    rewrite <- ?app_assoc; eexists; (split; [reflexivity|]).
  1-5: vm_compute; lia.
  rewrite !occurrences_app, occurrences_polls_reboot.
  destruct Hfinal as [->| ->];
    rewrite ?occurrences_reboot_giving_up; vm_compute; lia.
Qed.

(** X11: one call of [checkKitten] sleeps at most 29 times 5 seconds, 145
    seconds in all, whatever the remote side answers. *)
Theorem X11_sleeps_at_most_145_seconds (remote : Remote) (fuel : nat)
    (hostname : string) (o : options.t) (tr : list Event) :
  (30 ≤ fuel)%nat →
  ∃ evs,
    checkKitten remote fuel hostname o tr = (Some (), tr ++ evs)
    ∧ 0 ≤ slept evs ≤ 145.
Proof.
  intros Hfuel.
  pose proof (checkKitten_paths remote fuel hostname o tr Hfuel) as Hp.
  cbv zeta in Hp.
  destruct Hp as [(_ & ->)|[(_ & _ & ->)|[(_ & _ & _ & fmt & args & ->)|
    [(_ & _ & _ & _ & ->)|[(_ & _ & _ & _ & _ & ->)|
    (_ & _ & _ & _ & _ & k & final & Hk & -> & Hfinal)]]]]];
    rewrite <- ?app_assoc; eexists; (split; [reflexivity|]).
  1-5: destruct (str_in "tegra" hostname); cbn; lia.
  rewrite !slept_app, slept_polls.
  destruct Hfinal as [->| ->]; rewrite ?slept_giving_up;
    destruct (str_in "tegra" hostname); cbn; lia.
Qed.

(** X12: a host that is not a tegra is rebooted only if the run is not a
    dry run, the slave could be reached, [buildbot.tac] is among its tac
    files, and either the log shows that the factory was stopped or the
    graceful shutdown was accepted. *)
Theorem X12_reboot_needs_marker_and_shutdown (remote : Remote) (fuel : nat)
    (hostname : string) (o : options.t) (tr : list Event) :
  let t0 := tr ++ [EvLog "checking kitten %s" [hostname]] in
  let t1 := t0 ++ [EvConnect hostname (options.username o)
                             (options.password o)] in
  let t2 := t1 ++ [EvWait] in
  let t3 := t2 ++ [EvFindTacfiles] in
  let t4 := t3 ++ [EvTail 10] in
  (30 ≤ fuel)%nat →
  str_in "tegra" hostname = false →
  EvReboot ∉ tr →
  EvReboot ∈ (checkKitten remote fuel hostname o tr).2 →
  options.dryrun o = false
  ∧ slave_present remote t0 = true
  ∧ "buildbot.tac" ∈ tacfiles_found remote t2
  ∧ (str_in "Stopping factory" (log_tail remote t3 10) = true
     ∨ shutdown_accepted remote t4 = true).
Proof.
  cbv zeta. intros Hfuel Htegra Hbefore Hin.
  pose proof (checkKitten_paths remote fuel hostname o tr Hfuel) as Hp.
  cbv zeta in Hp. rewrite Htegra in Hp.
  destruct Hp as [(_ & Hrun)|[(_ & _ & Hrun)|
    [(_ & _ & _ & fmt & args & Hrun)|
    [(Hd & Hpr & Htac & Hstop & _)|[(_ & _ & _ & _ & _ & Hrun)|
    (Hd & Hpr & Htac & _ & Hacc & _)]]]]]; [| | |by auto| |by auto].
  all: exfalso; rewrite Hrun in Hin; cbn [snd] in Hin.
  all: repeat (apply elem_of_app in Hin as [Hin|Hin]); try done.
  all: by apply list_elem_of_singleton in Hin.
Qed.

Lemma after_literal_Some (p s r : string) :
  after_literal p s = Some r ↔ s = p +:+ r.
Proof.
  revert s. induction p as [|a p IH]; intros s.
  - rewrite app_empty_l. cbn. destruct s; split; congruence.
  - rewrite app_String. destruct s as [|b s]; cbn; [done|].
    destruct (Ascii.eqb_spec a b) as [->|Hne].
    + rewrite IH. split; congruence.
    + split; [done|]. intros [= ? ?]. congruence.
Qed.

Lemma after_dot_Some (s r : string) :
  after_dot s = Some r ↔ ∃ c, s = String c r ∧ c ≠ newline.
Proof.
  destruct s as [|a s]; cbn.
  - split; [done|]. by intros (c & ? & _).
  - destruct (Ascii.eqb_spec a newline) as [->|Hne].
    + split; [done|]. intros (c & [= <- <-] & ?). done.
    + split.
      * intros [= <-]. by exists a.
      * by intros (c & [= <- <-] & _).
Qed.

Lemma span_digits_spec (s : string) :
  s = (span_digits s).1 +:+ (span_digits s).2
  ∧ all_digits (span_digits s).1 = true
  ∧ digits_end (span_digits s).2.
Proof.
  induction s as [|a s (IH1 & IH2 & IH3)]; [done|].
  cbn [span_digits]. destruct (Ascii.is_nat a) as [n|] eqn:Ha.
  - destruct (span_digits s) as [ds rest]. cbn in *.
    rewrite app_String, <- IH1, Ha, IH2. repeat split; try done.
  - cbn. by rewrite app_empty_l.
Qed.

Lemma span_digits_app (ds rest : string) :
  all_digits ds = true → digits_end rest →
  span_digits (ds +:+ rest) = (ds, rest).
Proof.
  intros Hds Hrest. induction ds as [|a ds IH].
  - rewrite app_empty_l. by apply span_digits_end.
  - cbn [all_digits] in Hds. apply andb_true_iff in Hds as [Ha Hds].
    apply bool_decide_eq_true in Ha as [n Ha].
    rewrite app_String. cbn [span_digits]. by rewrite Ha, (IH Hds).
Qed.

(** X13: the tac files that count as "disabled by bug". The pattern of
    line 85 has unescaped dots, so it accepts [buildbot], any character,
    [tac], any character, [bug], one or more digits and then the end of
    the name or a final newline; the two characters may be anything but a
    newline. The bug number reported is the run of digits. *)
Theorem X13_bug_tac_names (tac bug : string) :
  match_bug_tac tac = Some bug
  ↔ ∃ (c1 c2 : ascii) (tail : string),
      tac = "buildbot" +:+ String c1
              ("tac" +:+ String c2 ("bug" +:+ (bug +:+ tail)))
      ∧ c1 ≠ newline ∧ c2 ≠ newline
      ∧ bug ≠ EmptyString ∧ all_digits bug = true
      ∧ (tail = EmptyString ∨ tail = String newline EmptyString).
Proof.
  unfold match_bug_tac. split.
  - destruct (after_literal "buildbot" tac) as [s1|] eqn:H1; [|done].
    cbn [mbind option_bind].
    destruct (after_dot s1) as [s2|] eqn:H2; [|done].
    cbn [mbind option_bind].
    destruct (after_literal "tac" s2) as [s3|] eqn:H3; [|done].
    cbn [mbind option_bind].
    destruct (after_dot s3) as [s4|] eqn:H4; [|done].
    cbn [mbind option_bind].
    destruct (after_literal "bug" s4) as [s5|] eqn:H5; [|done].
    cbn [mbind option_bind].
    destruct (span_digits_spec s5) as (Hs5 & Hds & _).
    destruct (span_digits s5) as [digits rest]. cbn in Hs5, Hds.
    destruct (bool_decide (digits = EmptyString)) eqn:Hne; [done|].
    destruct (bool_decide (rest = EmptyString ∨ _)) eqn:Hrest; [|done].
    intros [= <-].
    apply bool_decide_eq_false in Hne. apply bool_decide_eq_true in Hrest.
    apply after_literal_Some in H1, H3, H5.
    apply after_dot_Some in H2 as (c1 & -> & Hc1).
    apply after_dot_Some in H4 as (c2 & -> & Hc2).
    exists c1, c2, rest. subst. done.
  - intros (c1 & c2 & tail & -> & Hc1 & Hc2 & Hne & Hds & Htail).
    rewrite (proj2 (after_literal_Some "buildbot" _ _) eq_refl).
    cbn [mbind option_bind].
    rewrite (proj2 (after_dot_Some _ _) (ex_intro _ c1 (conj eq_refl Hc1))).
    cbn [mbind option_bind].
    rewrite (proj2 (after_literal_Some "tac" _ _) eq_refl).
    cbn [mbind option_bind].
    rewrite (proj2 (after_dot_Some _ _) (ex_intro _ c2 (conj eq_refl Hc2))).
    cbn [mbind option_bind].
    rewrite (proj2 (after_literal_Some "bug" _ _) eq_refl).
    cbn [mbind option_bind].
    rewrite span_digits_app; [|done|by destruct Htail as [->| ->]].
    rewrite bool_decide_eq_false_2 by done.
    by rewrite bool_decide_eq_true_2.
Qed.

(* ===================================================================== *)
(** * The wait for the workers *)
(* ===================================================================== *)

Lemma remove_first_perm (x : string) (l : list string) :
  x ∈ l → l ≡ₚ x :: remove_first x l.
Proof.
  induction l as [|y l IH]; [by intros ?%elem_of_nil|].
  cbn [remove_first]. destruct (decide (y = x)) as [->|Hne]; [done|].
  intros [?|Hin]%elem_of_cons; [congruence|].
  rewrite (IH Hin) at 1. apply Permutation_swap.
Qed.

Lemma elem_of_remove_first (x y : string) (l : list string) :
  y ∈ remove_first x l → y ∈ l.
Proof.
  induction l as [|z l IH]; [done|]. cbn [remove_first].
  destruct (decide (z = x)); [by apply list_elem_of_further|].
  intros [->|Hin]%elem_of_cons; [apply list_elem_of_here|].
  by apply list_elem_of_further, IH.
Qed.

Lemma elem_of_remove_first_ne (x y : string) (l : list string) :
  y ≠ x → y ∈ l → y ∈ remove_first x l.
Proof.
  intros Hne. induction l as [|z l IH]; [done|]. cbn [remove_first].
  intros [->|Hin]%elem_of_cons.
  - rewrite decide_False by done. apply list_elem_of_here.
  - destruct (decide (z = x)); [done|]. by apply list_elem_of_further, IH.
Qed.

Lemma collect_done (clock : nat → datetime) arrivals (w : Waiting) :
  outstanding w = [] → collect clock arrivals w = Some w.
Proof. intros H. destruct arrivals; cbn; by rewrite H. Qed.

(** When everything outstanding arrives, the loop ends with nothing
    outstanding; the reported hosts are stamped with readings of the
    clock and the other entries of the seen cache stay. *)
Lemma collect_finishes (clock : nat → datetime) (arrivals : list (option string)) :
  ∀ w : Waiting,
    outstanding w ⊆+ omap id arrivals →
    ∃ w',
      collect clock arrivals w = Some w'
      ∧ outstanding w' = []
      ∧ (∀ k, k ∉ outstanding w → seen w' !! k = seen w !! k)
      ∧ (∀ k, k ∈ outstanding w →
           ∃ n, (clock_reads w ≤ n)%nat ∧ seen w' !! k = Some (clock n)).
Proof.
  induction arrivals as [|arrival rest IH]; intros w Hsub.
  - cbn in Hsub. apply submseteq_nil_r in Hsub.
    exists w. rewrite collect_done by done.
    repeat split; try done. intros k Hk. rewrite Hsub in Hk.
    by apply elem_of_nil in Hk.
  - destruct (outstanding w) as [|job jobs'] eqn:Hout.
    { exists w. rewrite collect_done by done.
      repeat split; try done. by intros k ?%elem_of_nil. }
    cbn [collect]. rewrite Hout. rewrite <- Hout in *. clear job jobs' Hout.
    destruct arrival as [result|]; cbn [collect_step omap id] in *.
    2:{ apply IH. by cbn in Hsub. }
    cbn in Hsub.
    destruct (bool_decide (result ∈ outstanding w)) eqn:Hin.
    + apply bool_decide_eq_true in Hin.
      pose proof (remove_first_perm _ _ Hin) as Hperm.
      set (w1 := {| outstanding := remove_first result (outstanding w);
                    seen := <[result := clock (clock_reads w)]> (seen w);
                    clock_reads := S (clock_reads w) |}).
      destruct (IH w1) as (w' & Hrun & Hempty & Hframe & Hstamp).
      { cbn. rewrite Hperm in Hsub.
        by apply (submseteq_app_inv_l _ _ [result]). }
      exists w'. split; [done|]. split; [done|]. split.
      * intros k Hk. rewrite Hframe.
        -- cbn. apply lookup_insert_ne. intros <-. done.
        -- cbn. intros Hk'%elem_of_remove_first. done.
      * intros k Hk.
        destruct (decide (k ∈ remove_first result (outstanding w)))
          as [Hk'|Hk'].
        -- destruct (Hstamp k Hk') as (n & Hn & Hs). exists n.
           split; [cbn in Hn; lia|done].
        -- assert (k = result) as ->.
           { destruct (decide (k = result)) as [|Hne]; [done|].
             by apply (elem_of_remove_first_ne result) in Hk. }
           exists (clock_reads w). split; [lia|].
           rewrite (Hframe _ Hk'). cbn. apply lookup_insert_eq.
    + apply bool_decide_eq_false in Hin. apply IH.
      apply submseteq_cons_r in Hsub as [?|(l' & Hperm & _)]; [done|].
      exfalso. apply Hin. rewrite Hperm. apply list_elem_of_here.
Qed.

(** While nothing outstanding arrives, the loop keeps waiting. *)
Lemma collect_waits (clock : nat → datetime) (arrivals : list (option string)) :
  ∀ w : Waiting,
    outstanding w ≠ [] →
    Forall (λ arrival, ∀ result, arrival = Some result →
                                 result ∉ outstanding w) arrivals →
    collect clock arrivals w = None.
Proof.
  induction arrivals as [|arrival rest IH]; intros w Hne Hall.
  - cbn. by destruct (outstanding w).
  - apply Forall_cons in Hall as [Ha Hall].
    cbn [collect]. destruct (outstanding w) as [|job jobs'] eqn:Hout; [done|].
    rewrite <- Hout in *.
    assert (collect_step clock arrival w = w) as ->.
    { destruct arrival as [result|]; [cbn|done].
      by rewrite bool_decide_eq_false_2 by by apply Ha. }
    by apply IH.
Qed.

(** X14: when every outstanding job arrives on the result queue (between
    any number of empty polls and of results nobody waits for), the loop
    of lines 240-249 ends with nothing outstanding. Every reported host is
    then in the seen cache with a reading of the clock, and the entries of
    the other hosts are as before. *)
Theorem X14_collect_finishes (clock : nat → datetime)
    (arrivals : list (option string)) (w : Waiting) :
  outstanding w ⊆+ omap id arrivals →
  ∃ w',
    collect clock arrivals w = Some w'
    ∧ outstanding w' = []
    ∧ (∀ k, k ∉ outstanding w → seen w' !! k = seen w !! k)
    ∧ (∀ k, k ∈ outstanding w →
         ∃ n, (clock_reads w ≤ n)%nat ∧ seen w' !! k = Some (clock n)).
Proof. apply collect_finishes. Qed.

(** X15: the loop of lines 240-249 has no way out but the reports: as long
    as the result queue is empty or gives results that are not
    outstanding, it goes on waiting, however many passes it makes. *)
Theorem X15_collect_waits_for_reports (clock : nat → datetime)
    (arrivals : list (option string)) (w : Waiting) :
  outstanding w ≠ [] →
  Forall (λ arrival, ∀ result, arrival = Some result →
                               result ∉ outstanding w) arrivals →
  collect clock arrivals w = None.
Proof. apply collect_waits. Qed.

(** X16: the filter, a worker and the wait together. When the filter loop
    gets through the lines, a worker that makes as many passes as there
    are jobs reports them all, and on these reports the main process stops
    waiting with nothing outstanding and with every job of the work queue
    in the seen cache. *)
Theorem X16_every_enqueued_job_is_seen (remote : Remote) (fuel : nat)
    (o : options.t) (slaves : gmap string Slave)
    (seenCache : gmap string datetime) (reFilter : option Pattern)
    (force : bool) (kittens : list string) (clock : nat → datetime)
    (st : MainState) :
  (30 ≤ fuel)%nat →
  filter_loop slaves seenCache reFilter force kittens initial_state
  = (st, None) →
  ∃ worker w',
    processKittens remote (length (workQueue st)) fuel o
      {| jobs := workQueue st; done_queue := []; trace := [] |}
    = Some worker
    ∧ collect clock (Some <$> done_queue worker)
        {| outstanding := results st; seen := seenCache; clock_reads := 0 |}
      = Some w'
    ∧ outstanding w' = []
    ∧ (∀ k, k ∈ workQueue st → ∃ n, seen w' !! k = Some (clock n))
    ∧ (∀ k, k ∉ workQueue st → seen w' !! k = seenCache !! k).
Proof.
  intros Hfuel Hrun.
  destruct (filter_loop_effect slaves seenCache reFilter force kittens)
    as (exc & added & logs & Heff).
  destruct (Heff initial_state) as (st' & Hrun' & Hq & Hr & _).
  rewrite Hrun in Hrun'. injection Hrun' as <- <-. cbn in Hq, Hr.
  destruct (processKittens_drains remote fuel o Hfuel
              (length (workQueue st))
              {| jobs := workQueue st; done_queue := []; trace := [] |})
    as (worker & Hw & _ & Hdone); [done|].
  cbn in Hdone.
  destruct (collect_finishes clock (Some <$> done_queue worker)
              {| outstanding := results st; seen := seenCache;
                 clock_reads := 0 |})
    as (w' & Hc & Hempty & Hframe & Hstamp).
  { cbn. rewrite Hdone, Hr, Hq.
    assert (∀ l : list string, omap id (Some <$> l) = l) as ->; [|done].
    intros l. induction l as [|x l IH]; [done|]. cbn. by rewrite IH. }
  exists worker, w'. repeat split; try done.
  - intros k Hk. cbn in Hstamp. destruct (Hstamp k) as (n & _ & Hn).
    + by rewrite Hr, <- Hq.
    + by exists n.
  - intros k Hk. apply Hframe. cbn. by rewrite Hr, <- Hq.
Qed.

(* ===================================================================== *)
(** * More on the seen cache *)
(* ===================================================================== *)

Lemma match_format_microsecond (s : string) (d : datetime) :
  match_format s = Some d → microsecond d = 0.
Proof.
  unfold match_format. intros H.
  repeat match type of H with
         | context [mbind _ ?x] =>
             destruct x as [[]|]; cbn [mbind option_bind] in H; [|done]
         | context [mbind _ ?x] =>
             destruct x; cbn [mbind option_bind] in H; [|done]
         end.
  destruct (bool_decide _); [|done]. by injection H as <-.
Qed.

Lemma strptime_Ok (s : string) (d : datetime) :
  strptime s = Ok d → valid_datetime d = true ∧ microsecond d = 0.
Proof.
  unfold strptime. destruct (match_format s) as [d'|] eqn:Hm; [|done].
  destruct (valid_datetime d') eqn:Hv; [|done]. intros [= <-].
  split; [done|]. by eapply match_format_microsecond.
Qed.

Lemma split_pieces (c : ascii) (s : string) :
  Forall (λ piece, has_char c piece = false) (split c s).
Proof.
  induction s as [|a s IH]; [by repeat constructor|].
  cbn [split]. destruct (Ascii.eqb a c) eqn:Ha; [by constructor|].
  destruct (split c s) as [|p ps].
  { constructor; [cbn; by rewrite Ha|constructor]. }
  apply Forall_cons in IH as [Hp Hps]. constructor; [|done].
  cbn [has_char]. by rewrite Ha, Hp.
Qed.

Lemma parse_cache_line_Ok (item kitten : string) (ts : datetime) :
  parse_cache_line item = Ok (kitten, ts) →
  has_char space kitten = false
  ∧ valid_datetime ts = true ∧ microsecond ts = 0.
Proof.
  unfold parse_cache_line. pose proof (split_pieces space item) as Hp.
  destruct (split space item) as [|k [|s [|]]]; try done.
  apply Forall_cons in Hp as [Hk _].
  destruct (strptime (strip s)) as [d|] eqn:Hs; [|done].
  cbn. intros [= <- <-]. split; [done|]. by apply strptime_Ok in Hs.
Qed.

Lemma parse_cache_line_no_blank (item : string) :
  has_char space item = false →
  parse_cache_line item = Raise (ValueError "need exactly 2 values to unpack").
Proof.
  intros H. unfold parse_cache_line. by rewrite split_no_sep.
Qed.

Lemma loadCache_loop_raises (clock : nat → datetime) (before : list string) :
  ∀ (n : nat) (bad : string) (after : list string)
    (result : gmap string datetime) (e : Exception),
    Forall (λ item, ∃ entry, parse_cache_line item = Ok entry) before →
    parse_cache_line bad = Raise e →
    loadCache_loop clock n (before ++ bad :: after) result = Raise e.
Proof.
  induction before as [|item before IH]; intros n bad after result e Hok Hbad.
  - cbn. by rewrite Hbad.
  - apply Forall_cons in Hok as [[[k ts] Hitem] Hok].
    cbn [app loadCache_loop]. rewrite Hitem. by apply IH.
Qed.

Lemma loadCache_loop_entries (clock : nat → datetime) (lines : list string) :
  ∀ (n : nat) (result cache : gmap string datetime),
    map_Forall (loaded_entry clock) result →
    loadCache_loop clock n lines result = Ok cache →
    map_Forall (loaded_entry clock) cache.
Proof.
  induction lines as [|item rest IH]; intros n result cache Hres; cbn.
  - by intros [= <-].
  - destruct (parse_cache_line item) as [[kitten ts]|] eqn:Hitem; [|done].
    apply IH. destruct (fresh (clock n) ts) eqn:Hf; [|done].
    apply map_Forall_insert_2; [|done].
    apply parse_cache_line_Ok in Hitem as (Hk & Hv & Hus).
    repeat split; try done. exists n. by apply fresh_iff.
Qed.

(** As [recent_year], from the bound that [loadCache] checks. *)
Lemma recent_year_fresh (now ts : datetime) :
  valid_datetime now = true → 1970 ≤ year now →
  valid_datetime ts = true →
  total_microseconds (datetime_sub now ts) < 3601000000 →
  1900 ≤ year ts.
Proof.
  intros Hn%valid_datetime_fields Hy Ht%valid_datetime_fields.
  rewrite total_microseconds_sub. unfold toordinal, seconds_of_day.
  pose proof (days_before_month_bounds (year now) (month now)).
  pose proof (days_before_month_bounds (year ts) (month ts)).
  unfold days_before_year. intros Hspan.
  destruct (decide (1900 ≤ year ts)) as [|Hlt]; [done|]. exfalso.
  assert (year ts - 1 ≤ 1898) as Hy1 by lia.
  assert (1969 ≤ year now - 1) as Hy2 by lia.
  revert Hspan Hy1 Hy2.
  generalize (year ts - 1), (year now - 1). intros yt yn. lia.
Qed.

Lemma write_entries_years (entries : list (string * datetime)) :
  Forall (λ entry, 1900 ≤ year entry.2) entries →
  write_entries entries = Ok (concat_str (entry_text <$> entries)).
Proof.
  induction 1 as [|[kitten ts] entries Hy _ IH]; [reflexivity|].
  cbn in Hy. cbn [write_entries]. unfold cache_line, strftime.
  rewrite bool_decide_eq_false_2 by lia. cbn [exc_bind]. by rewrite IH.
Qed.

Lemma write_entries_Ok (entries : list (string * datetime)) (content : string) :
  write_entries entries = Ok content →
  Forall (λ entry, 1900 ≤ year entry.2) entries.
Proof.
  revert content. induction entries as [|[kitten ts] entries IH];
    intros content; [by constructor|].
  cbn [write_entries]. unfold cache_line, strftime.
  destruct (bool_decide (year ts < 1900)) eqn:Hy; [done|].
  apply bool_decide_eq_false in Hy. cbn [exc_bind].
  destruct (write_entries entries) as [more|] eqn:Hmore; [|done].
  intros _. constructor; [cbn; lia|by eapply IH].
Qed.

Lemma valid_whole_second (d : datetime) :
  valid_datetime d = true → valid_datetime (whole_second d) = true.
Proof.
  unfold valid_datetime. rewrite !andb_true_iff, !bool_decide_eq_true.
  cbn. lia.
Qed.

Lemma total_microseconds_whole_second (now ts : datetime) :
  total_microseconds (datetime_sub now (whole_second ts))
  = total_microseconds (datetime_sub now ts) + microsecond ts.
Proof.
  rewrite !total_microseconds_sub.
  unfold toordinal, seconds_of_day, whole_second.
  cbn [year month day hour minute second microsecond]. lia.
Qed.

Lemma entry_text_whole_second (entries : list (string * datetime)) :
  entry_text <$> (prod_map id whole_second <$> entries)
  = entry_text <$> entries.
Proof.
  induction entries as [|[k ts] entries IH]; [done|]. cbn. by rewrite IH.
Qed.

(** Saving a cache and loading it again cuts the stamps to the second. *)
Lemma save_then_load_truncates (clock : nat → datetime)
    (cache : gmap string datetime) :
  (∀ n, valid_datetime (clock n) = true ∧ 1970 ≤ year (clock n)) →
  (∀ kitten ts, cache !! kitten = Some ts →
     has_char space kitten = false ∧ has_char newline kitten = false
     ∧ valid_datetime ts = true
     ∧ ∀ n, within_hour (clock n) ts) →
  ∃ content,
    writeCache cache = Ok content
    ∧ loadCache clock (Some content) = Ok (whole_second <$> cache).
Proof.
  intros Hclock Hcache.
  set (entries := prod_map id whole_second <$> map_to_list cache).
  assert (Forall (λ entry, 1900 ≤ year entry.2) (map_to_list cache)) as Hy.
  { apply Forall_forall. intros [kitten ts] Hin%elem_of_map_to_list.
    destruct (Hcache _ _ Hin) as (_ & _ & Hv & Hnear).
    destruct (Hclock 0%nat) as [Hcv Hcy].
    apply (recent_year (clock 0%nat)); try done. apply Hnear. }
  assert (Forall writable entries) as Hw.
  { apply Forall_fmap, Forall_forall.
    intros [kitten ts] Hin. pose proof Hin as Hin'%elem_of_map_to_list.
    destruct (Hcache _ _ Hin') as (Hsp & Hnl & Hv & Hnear).
    rewrite Forall_forall in Hy. specialize (Hy _ Hin).
    repeat split; try done. by apply valid_whole_second. }
  assert (Forall (λ entry, ∀ n, fresh (clock n) entry.2 = true) entries)
    as Hf.
  { apply Forall_fmap, Forall_forall.
    intros [kitten ts] Hin%elem_of_map_to_list n.
    destruct (Hcache _ _ Hin) as (_ & _ & Hv%valid_datetime_fields & Hnear).
    apply fresh_iff. cbn. rewrite total_microseconds_whole_second.
    destruct (Hnear n). lia. }
  exists (concat_str (entry_text <$> map_to_list cache)).
  split; [by apply write_entries_years|].
  unfold loadCache. rewrite <- entry_text_whole_second. fold entries.
  rewrite readlines_written by done.
  rewrite loadCache_loop_written by done.
  rewrite foldl_insert_union.
  - unfold entries.
    by rewrite list_to_map_fmap, list_to_map_to_list, (right_id_L ∅ (∪)).
  - unfold entries. rewrite <- list_fmap_compose.
    assert (fst ∘ prod_map id whole_second = (fst : string * datetime → string))
      as -> by done.
    apply NoDup_fst_map_to_list.
Qed.

(** X17: saving and loading again cuts the stamps to the second. For a
    cache whose identifiers have no blank and no newline and whose stamps
    are dates at most 3600 seconds away from the clock (which shows dates
    of 1970 or later), [loadCache] on what [writeCache] wrote gives the
    same identifiers, each with its stamp without the microseconds. *)
Theorem X17_save_then_load_drops_microseconds (clock : nat → datetime)
    (cache : gmap string datetime) :
  (∀ n, valid_datetime (clock n) = true ∧ 1970 ≤ year (clock n)) →
  (∀ kitten ts, cache !! kitten = Some ts →
     has_char space kitten = false ∧ has_char newline kitten = false
     ∧ valid_datetime ts = true
     ∧ ∀ n, within_hour (clock n) ts) →
  ∃ content,
    writeCache cache = Ok content
    ∧ loadCache clock (Some content) = Ok (whole_second <$> cache).
Proof. apply save_then_load_truncates. Qed.

(** X18: a line of the cache file without a blank makes the whole load
    fail with [ValueError], also when the lines before it were read and
    whatever follows it: nothing of the file is kept. *)
Theorem X18_line_without_blank_fails_load (clock : nat → datetime)
    (content : string) (before after : list string) (bad : string) :
  readlines content = before ++ bad :: after →
  Forall (λ item, ∃ entry, parse_cache_line item = Ok entry) before →
  has_char space bad = false →
  loadCache clock (Some content)
  = Raise (ValueError "need exactly 2 values to unpack").
Proof.
  intros Hlines Hbefore Hbad. unfold loadCache. rewrite Hlines.
  apply loadCache_loop_raises; [done|].
  by apply parse_cache_line_no_blank.
Qed.

(** X19: every entry of the cache that [loadCache] returns has an
    identifier without a blank and a stamp that is a date that exists,
    has no microseconds and lies less than 3601 seconds before a reading
    of the clock. *)
Theorem X19_loaded_entries (clock : nat → datetime)
    (cachefile : option string) (cache : gmap string datetime)
    (kitten : string) (ts : datetime) :
  loadCache clock cachefile = Ok cache →
  cache !! kitten = Some ts →
  loaded_entry clock kitten ts.
Proof.
  intros Hload Hk. revert kitten ts Hk.
  change (map_Forall (loaded_entry clock) cache).
  destruct cachefile as [content|]; cbn in Hload.
  - eapply loadCache_loop_entries; [|done]. apply map_Forall_empty.
  - injection Hload as <-. apply map_Forall_empty.
Qed.

(** X20: [writeCache] fails exactly when a stamp of the cache is before
    the year 1900, which [strftime] of Python 2 refuses. *)
Theorem X20_writeCache_needs_1900 (cache : gmap string datetime) :
  (∃ content, writeCache cache = Ok content)
  ↔ map_Forall (λ _ ts, 1900 ≤ year ts) cache.
Proof.
  unfold writeCache. rewrite map_Forall_to_list. split.
  - intros [content Hw]. apply write_entries_Ok in Hw.
    eapply Forall_impl; [done|]. by intros [k ts].
  - intros Hy. eexists. apply write_entries_years.
    eapply Forall_impl; [done|]. by intros [k ts].
Qed.

(** X21: what [loadCache] returned, [writeCache] can write, when the clock
    shows dates of 1970 or later: no stamp that passed the test of line
    140 is too old for [strftime]. *)
Theorem X21_loaded_cache_can_be_saved (clock : nat → datetime)
    (cachefile : option string) (cache : gmap string datetime) :
  (∀ n, valid_datetime (clock n) = true ∧ 1970 ≤ year (clock n)) →
  loadCache clock cachefile = Ok cache →
  ∃ content, writeCache cache = Ok content.
Proof.
  intros Hclock Hload.
  assert (map_Forall (loaded_entry clock) cache) as Hentries.
  { destruct cachefile as [content|]; cbn in Hload.
    - eapply loadCache_loop_entries; [|done]. apply map_Forall_empty.
    - injection Hload as <-. apply map_Forall_empty. }
  eexists. unfold writeCache. apply write_entries_years.
  apply Forall_forall. intros [kitten ts] Hin%elem_of_map_to_list.
  destruct (Hentries _ _ Hin) as (_ & Hv & _ & n & Hn).
  destruct (Hclock n) as [Hcv Hcy]. cbn.
  by apply (recent_year_fresh (clock n)).
Qed.


(** ** The further theorems at concrete inputs *)

Lemma X9_dryrun_touches_nothing_witness :
  checkKitten detached_slave 0 "talos-r4-snow-078" dryrun_options []
  = (Some (), [] ++ [EvLog "checking kitten %s" ["talos-r4-snow-078"]]).
Proof.
  apply (X9_dryrun_touches_nothing detached_slave 0 "talos-r4-snow-078"
           dryrun_options []).
  reflexivity.
Defined.

Lemma X10_at_most_one_reboot_witness :
  ∃ evs,
    checkKitten detached_slave 30 "talos-r4-snow-078" options.default []
    = (Some (), [] ++ evs)
    ∧ (occurrences EvReboot evs ≤ 1)%nat.
Proof.
  apply (X10_at_most_one_reboot detached_slave 30 "talos-r4-snow-078"
           options.default []).
  - lia.
  - reflexivity.
Defined.

Lemma X11_sleeps_at_most_145_seconds_witness :
  ∃ evs,
    checkKitten detached_slave 30 "talos-r4-snow-078" options.default []
    = (Some (), [] ++ evs)
    ∧ 0 ≤ slept evs ≤ 145.
Proof.
  apply (X11_sleeps_at_most_145_seconds detached_slave 30
           "talos-r4-snow-078" options.default []).
  lia.
Defined.

Lemma X12_reboot_needs_marker_and_shutdown_witness :
  options.dryrun options.default = false
  ∧ slave_present detached_slave
      ([] ++ [EvLog "checking kitten %s" ["talos-r4-snow-078"]]) = true
  ∧ "buildbot.tac"
    ∈ tacfiles_found detached_slave
        ((([] ++ [EvLog "checking kitten %s" ["talos-r4-snow-078"]])
          ++ [EvConnect "talos-r4-snow-078" "cltbld" None]) ++ [EvWait])
  ∧ (str_in "Stopping factory"
       (log_tail detached_slave
          (((([] ++ [EvLog "checking kitten %s" ["talos-r4-snow-078"]])
             ++ [EvConnect "talos-r4-snow-078" "cltbld" None]) ++ [EvWait])
           ++ [EvFindTacfiles]) 10) = true
     ∨ shutdown_accepted detached_slave
         ((((([] ++ [EvLog "checking kitten %s" ["talos-r4-snow-078"]])
              ++ [EvConnect "talos-r4-snow-078" "cltbld" None]) ++ [EvWait])
            ++ [EvFindTacfiles]) ++ [EvTail 10]) = true).
Proof.
  apply (X12_reboot_needs_marker_and_shutdown detached_slave 30
           "talos-r4-snow-078" options.default []).
  - lia.
  - reflexivity.
  - apply not_elem_of_nil.
  - apply (bool_decide_unpack _). vm_compute. exact I.
Defined.

Lemma X14_collect_finishes_witness :
  ∃ w',
    collect (λ _, ten_minutes_later)
            [None; Some "b"; Some "zz"; None; Some "a"] waiting_for_a_b
    = Some w'
    ∧ outstanding w' = []
    ∧ (∀ k, k ∉ outstanding waiting_for_a_b →
            seen w' !! k = seen waiting_for_a_b !! k)
    ∧ (∀ k, k ∈ outstanding waiting_for_a_b →
         ∃ n, (clock_reads waiting_for_a_b ≤ n)%nat
              ∧ seen w' !! k = Some ((λ _ : nat, ten_minutes_later) n)).
Proof.
  apply (X14_collect_finishes (λ _, ten_minutes_later)
           [None; Some "b"; Some "zz"; None; Some "a"] waiting_for_a_b).
  apply (bool_decide_unpack _). vm_compute. exact I.
Defined.

Lemma X15_collect_waits_for_reports_witness :
  collect (λ _, ten_minutes_later) [None; Some "zz"; None] waiting_for_a_b
  = None.
Proof.
  apply (X15_collect_waits_for_reports (λ _, ten_minutes_later)
           [None; Some "zz"; None] waiting_for_a_b).
  - discriminate.
  - repeat constructor; intros result [= <-];
      apply (bool_decide_unpack _); vm_compute; exact I.
Defined.

Lemma X16_every_enqueued_job_is_seen_witness :
  let st := {| workQueue := ["a"]; results := ["a"];
               logged := [Info "b is not enabled, skipping"] |} in
  ∃ worker w',
    processKittens detached_slave (length (workQueue st)) 30 options.default
      {| jobs := workQueue st; done_queue := []; trace := [] |}
    = Some worker
    ∧ collect (λ _, ten_minutes_later) (Some <$> done_queue worker)
        {| outstanding := results st; seen := ∅; clock_reads := 0 |}
      = Some w'
    ∧ outstanding w' = []
    ∧ (∀ k, k ∈ workQueue st →
            ∃ n, seen w' !! k = Some ((λ _ : nat, ten_minutes_later) n))
    ∧ (∀ k, k ∉ workQueue st →
            seen w' !! k = (∅ : gmap string datetime) !! k).
Proof.
  apply (X16_every_enqueued_job_is_seen detached_slave 30 options.default
           example_slaves ∅ None false ["a,Yes"; "b,Yes"]
           (λ _, ten_minutes_later)
           {| workQueue := ["a"]; results := ["a"];
              logged := [Info "b is not enabled, skipping"] |}).
  - lia.
  - reflexivity.
Defined.

Lemma X17_save_then_load_drops_microseconds_witness :
  ∃ content,
    writeCache {[ "talos-r4-snow-078" := ten_minutes_later ]} = Ok content
    ∧ loadCache (λ _, an_hour_later) (Some content)
      = Ok (whole_second <$> {[ "talos-r4-snow-078" := ten_minutes_later ]}).
Proof.
  apply (X17_save_then_load_drops_microseconds (λ _, an_hour_later)
           {[ "talos-r4-snow-078" := ten_minutes_later ]}).
  - intros _. split; [reflexivity|]. cbn. lia.
  - intros kitten ts [<- <-]%lookup_singleton_Some.
    repeat split; try reflexivity; vm_compute; discriminate.
Defined.

Lemma X18_line_without_blank_fails_load_witness :
  loadCache (λ _, ten_minutes_later) (Some broken_file)
  = Raise (ValueError "need exactly 2 values to unpack").
Proof.
  apply (X18_line_without_blank_fails_load (λ _, ten_minutes_later)
           broken_file [one_entry_file] []
           ("broken" +:+ String newline EmptyString)).
  - reflexivity.
  - repeat constructor. exists ("a", midnight). reflexivity.
  - reflexivity.
Defined.

Lemma X19_loaded_entries_witness :
  loaded_entry (λ _, an_hour_later) "a" midnight.
Proof.
  apply (X19_loaded_entries (λ _, an_hour_later) (Some one_entry_file)
           {[ "a" := midnight ]} "a" midnight).
  - vm_compute. reflexivity.
  - reflexivity.
Defined.

Lemma X21_loaded_cache_can_be_saved_witness :
  ∃ content, writeCache {[ "a" := midnight ]} = Ok content.
Proof.
  apply (X21_loaded_cache_can_be_saved (λ _, an_hour_later)
           (Some one_entry_file) {[ "a" := midnight ]}).
  - intros _. split; [reflexivity|]. cbn. lia.
  - vm_compute. reflexivity.
Defined.


(* ===================================================================== *)
(** * The shutdown loop, pass by pass *)
(* ===================================================================== *)

Lemma startswith_iff (p s : string) :
  startswith p s = true ↔ ∃ after, s = p +:+ after.
Proof.
  revert s. induction p as [|a p IH]; intros s.
  - split; [intros _; by exists s|by destruct s].
  - destruct s as [|b s]; cbn [startswith].
    + split; [done|]. intros [after H]. by rewrite app_String in H.
    + destruct (Ascii.eqb_spec a b) as [->|Hne].
      * rewrite IH. split; intros [after H]; exists after.
        -- by rewrite app_String, H.
        -- rewrite app_String in H. congruence.
      * split; [done|]. intros [after H]. rewrite app_String in H.
        congruence.
Qed.

Lemma str_in_unfold (sub s : string) :
  str_in sub s
  = startswith sub s
    || match s with
       | EmptyString => false
       | String _ s' => str_in sub s'
       end.
Proof. by destruct s. Qed.

Lemma str_in_iff (sub s : string) : str_in sub s = true ↔ contains sub s.
Proof.
  split.
  - induction s as [|a s IH]; rewrite str_in_unfold, orb_true_iff.
    + intros [[after H]%startswith_iff|]; [|done].
      exists EmptyString, after. by rewrite app_empty_l.
    + intros [[after H]%startswith_iff|(before & after & H)%IH].
      * exists EmptyString, after. by rewrite app_empty_l.
      * exists (String a before), after. by rewrite app_String, H.
  - intros (before & after & ->).
    induction before as [|a before IH]; rewrite str_in_unfold.
    + rewrite app_empty_l. apply orb_true_iff. left.
      apply startswith_iff. by exists after.
    + rewrite app_String, IH. apply orb_true_r.
Qed.

(** The test of line 114 is the one the words say. *)
Lemma shutdown_seen_iff (data : string) :
  shutdown_seen data = true ↔ shows_shutdown data.
Proof.
  unfold shutdown_seen, shows_shutdown.
  rewrite !orb_true_iff, bool_decide_eq_true, !str_in_iff. tauto.
Qed.

Lemma shutdown_seen_not (data : string) :
  shutdown_seen data = false ↔ ¬ shows_shutdown data.
Proof.
  rewrite <- shutdown_seen_iff. by destruct (shutdown_seen data).
Qed.

(** The loop entered with [count = 29 - r]: [k] polls that do not show the
    shutdown, each followed by a sleep, and then either a poll that shows
    it and the reboot, with [k < r], or, after [r] polls, the giving up. *)
Lemma poll_loop_outcome (remote : Remote) (r : nat) : ∀ count tr,
  count = 29 - Z.of_nat r →
  ∃ (k : nat) (final : list Event),
    (k ≤ r)%nat
    ∧ (∀ fuel, (k < fuel)%nat →
         poll_loop remote fuel count tr
         = (Some (), (tr ++ polls k) ++ final))
    ∧ (∀ fuel, (fuel ≤ k)%nat → (poll_loop remote fuel count tr).1 = None)
    ∧ (∀ i, (i < k)%nat →
         ¬ shows_shutdown (log_tail remote (tr ++ polls i) 5))
    ∧ (((k < r)%nat
        ∧ shows_shutdown (log_tail remote (tr ++ polls k) 5)
        ∧ final = rebooting)
       ∨ (k = r ∧ final = giving_up remote (tr ++ polls k))).
Proof.
  induction r as [|r IH]; intros count tr Hc.
  - exists 0%nat, (giving_up remote tr).
    cbn [polls replicate concat]. rewrite app_nil_r.
    split; [lia|]. split; [|split; [|split]].
    + intros [|fuel] ?; [lia|].
      by rewrite poll_loop_S, poll_body_gives_up by lia.
    + intros fuel ?. by assert (fuel = 0%nat) as -> by lia.
    + intros i ?. lia.
    + by right.
  - destruct (shutdown_seen (log_tail remote tr 5)) eqn:Hseen.
    + exists 0%nat, rebooting.
      cbn [polls replicate concat]. rewrite app_nil_r.
      split; [lia|]. split; [|split; [|split]].
      * intros [|fuel] ?; [lia|].
        by rewrite poll_loop_S, poll_body_reboots by (done || lia).
      * intros fuel ?. by assert (fuel = 0%nat) as -> by lia.
      * intros i ?. lia.
      * left. split; [lia|]. split; [|done]. by apply shutdown_seen_iff.
    + destruct (IH (count + 1) (tr ++ [EvTail 5; EvSleep 5]))
        as (k & final & Hk & Hrun & Hshort & Hbefore & Hend); [lia|].
      assert (∀ i, (tr ++ [EvTail 5; EvSleep 5]) ++ polls i
                   = tr ++ polls (S i)) as Hpolls.
      { intros i. by rewrite polls_S, app_assoc. }
      exists (S k), final. rewrite <- Hpolls.
      split; [lia|]. split; [|split; [|split]].
      * intros [|fuel] ?; [lia|].
        rewrite poll_loop_S, poll_body_sleeps by (done || lia).
        apply Hrun. lia.
      * intros [|fuel] ?; [done|].
        rewrite poll_loop_S, poll_body_sleeps by (done || lia).
        apply Hshort. lia.
      * intros [|i] ?.
        -- cbn [polls replicate concat]. rewrite app_nil_r.
           by apply shutdown_seen_not.
        -- rewrite <- Hpolls. apply Hbefore. lia.
      * destruct Hend as [(? & ? & ?)|[-> ?]]; [left|right].
        -- split; [lia|done].
        -- done.
Qed.

(** C3, as the code has it. The loop of lines 104-118 ends, whatever the
    remote side answers: it makes [n <= 30] passes (fuel for [n] passes is
    enough, less is not) with a sleep of 5 seconds after each pass but the
    last. The first [n - 1] passes polled a log tail that is neither empty
    nor has one of the markers [Main loop terminated] and
    [ProcessExitedAlready]. Then either [n < 30], the poll of pass [n]
    shows an empty tail or a marker, and the loop ends with a reboot; or
    [n = 30] and the 30th pass gives up: it fetches ten lines to log them
    and does not reboot, whatever they show. From any state, a pass before
    the 30th whose tail is empty or has a marker reboots, and the 30th
    pass gives up. *)
Theorem C3_poll_loop_outcome (remote : Remote) (tr : list Event) :
  (∃ (n : nat) (final : list Event),
      (1 ≤ n ≤ 30)%nat
      ∧ (∀ fuel, (n ≤ fuel)%nat →
           poll_loop remote fuel 0 tr
           = (Some (), (tr ++ polls (n - 1)) ++ final))
      ∧ (∀ fuel, (fuel < n)%nat → (poll_loop remote fuel 0 tr).1 = None)
      ∧ occurrences (EvSleep 5) (polls (n - 1) ++ final) = (n - 1)%nat
      ∧ (∀ i, (i < n - 1)%nat →
           ¬ shows_shutdown (log_tail remote (tr ++ polls i) 5))
      ∧ (((n < 30)%nat
          ∧ shows_shutdown (log_tail remote (tr ++ polls (n - 1)) 5)
          ∧ final = rebooting)
         ∨ (n = 30%nat
            ∧ final = giving_up remote (tr ++ polls 29)
            ∧ (EvReboot ∉ polls 29 ++ final))))
  ∧ (∀ (count : Z) (fuel : nat) (tr0 : list Event),
       count + 1 < 30 ∧ shows_shutdown (log_tail remote tr0 5) →
       poll_loop remote (S fuel) count tr0 = (Some (), tr0 ++ rebooting))
  ∧ (∀ (count : Z) (fuel : nat) (tr0 : list Event),
       30 ≤ count + 1 →
       poll_loop remote (S fuel) count tr0
       = (Some (), tr0 ++ giving_up remote tr0)).
Proof.
  split; [|split].
  - destruct (poll_loop_outcome remote 29 0 tr eq_refl)
      as (k & final & Hk & Hrun & Hshort & Hbefore & Hend).
    exists (S k), final. replace (S k - 1)%nat with k by lia.
    split; [lia|]. split; [intros fuel ?; apply Hrun; lia|].
    split; [intros fuel ?; apply Hshort; lia|].
    assert (occurrences (EvSleep 5) final = 0%nat
            ∧ (final = giving_up remote (tr ++ polls k) →
               EvReboot ∉ polls k ++ final)) as [Hsl Hnr].
    { destruct Hend as [(_ & _ & ->)|[_ ->]].
      - split; [done|]. intros Heq.
        pose proof (occurrences_reboot_giving_up remote (tr ++ polls k)) as H.
        by rewrite <- Heq in H.
      - destruct (giving_up_events remote (tr ++ polls k)) as (Hs & Hr & _).
        split; [done|]. intros _ [[?|?]%elem_of_polls|?]%elem_of_app; done. }
    split; [by rewrite occurrences_app, occurrences_polls_sleep, Hsl|].
    split; [done|].
    destruct Hend as [(? & ? & ?)|[-> Hf]]; [left|right].
    + split; [lia|done].
    + split; [done|]. split; [done|]. by apply Hnr.
  - intros count fuel tr0 [Hc Hs%shutdown_seen_iff].
    by rewrite poll_loop_S, poll_body_reboots.
  - intros count fuel tr0 Hc.
    by rewrite poll_loop_S, poll_body_gives_up.
Qed.

(** C3 as stated fails at the 30th pass. With [late_marker] the 29 polls
    show a busy slave; the 30th pass fetches a log tail that has the
    marker [Main loop terminated], logs it and gives up: there is no
    reboot. *)
Lemma C3_marker_on_30th_pass_is_not_rebooted :
  poll_loop late_marker 30 0 []
  = (Some (),
     polls 29
     ++ [EvLog "Took too long to shut down; giving up" [];
         EvTail 10;
         EvLog "last 10 lines are: %s" ["Main loop terminated."]])
  ∧ shows_shutdown "Main loop terminated."
  ∧ (EvReboot ∉ (poll_loop late_marker 30 0 []).2).
Proof.
  split; [vm_compute; reflexivity|]. split.
  - right. left. by exists EmptyString, ".".
  - apply (bool_decide_unpack _). vm_compute. exact I.
Qed.

(* ===================================================================== *)
(** * What [loadCache] returns for a file whose lines can be read *)
(* ===================================================================== *)

(** The loop over lines that all parse: it returns a cache; an identifier
    that is on no line keeps what it had; with one line per identifier,
    the identifier of line [i] gets the stamp of that line when the line
    passes the test of line 140, and keeps what it had when not. *)
Lemma loadCache_loop_parsed (clock : nat → datetime) (lines : list string)
    (entries : list (string * datetime)) :
  Forall2 (λ item entry, parse_cache_line item = Ok entry) lines entries →
  ∀ (n : nat) (result : gmap string datetime),
    ∃ cache,
      loadCache_loop clock n lines result = Ok cache
      ∧ (∀ kitten, kitten ∉ entries.*1 → cache !! kitten = result !! kitten)
      ∧ (NoDup entries.*1 →
         ∀ i kitten ts, entries !! i = Some (kitten, ts) →
           cache !! kitten
           = if fresh (clock (n + i)%nat) ts then Some ts
             else result !! kitten).
Proof.
  induction 1 as [|item [k0 ts0] lines entries Hitem _ IH]; intros n result.
  - exists result. split; [done|]. split; [done|]. by intros _ i ? ? ?.
  - cbn [loadCache_loop]. rewrite Hitem.
    set (result' := if fresh (clock n) ts0 then <[k0:=ts0]> result
                    else result).
    destruct (IH (S n) result') as (cache & Hrun & Hother & Hentry).
    exists cache. split; [done|]. split.
    + intros kitten Hk. cbn in Hk. apply not_elem_of_cons in Hk as [Hne Hk].
      rewrite (Hother _ Hk). unfold result'.
      destruct (fresh (clock n) ts0); [by apply lookup_insert_ne|done].
    + cbn. intros [Hk0 Hnd]%NoDup_cons [|i] kitten ts; cbn.
      * intros [= <- <-]. rewrite (Hother _ Hk0), Nat.add_0_r.
        unfold result'. destruct (fresh (clock n) ts0);
          [apply lookup_insert_eq|done].
      * intros Hi. rewrite (Hentry Hnd _ _ _ Hi).
        replace (S n + i)%nat with (n + S i)%nat by lia.
        destruct (fresh (clock (n + S i)%nat) ts); [done|].
        assert (k0 ≠ kitten) as Hne.
        { intros ->. apply Hk0. apply list_elem_of_fmap.
          exists (kitten, ts). split; [done|].
          by eapply list_elem_of_lookup_2. }
        unfold result'.
        destruct (fresh (clock n) ts0); [by apply lookup_insert_ne|done].
Qed.

Lemma loadCache_loop_snoc (clock : nat → datetime) (lines : list string)
    (item : string) :
  ∀ (n : nat) (result : gmap string datetime),
    loadCache_loop clock n (lines ++ [item]) result
    = exc_bind (loadCache_loop clock n lines result)
               (λ cache, loadCache_loop clock (n + length lines) [item] cache).
Proof.
  induction lines as [|l lines IH]; intros n result.
  - cbn [app length loadCache_loop exc_bind]. by rewrite Nat.add_0_r.
  - cbn [app length loadCache_loop].
    destruct (parse_cache_line l) as [[k ts]|e]; [|done].
    rewrite IH. by rewrite Nat.add_succ_r.
Qed.

(** The loop over lines that all parse, in full: the cache it returns has
    the stamp [ts] under an identifier exactly when some line gives that
    identifier this stamp, passes the test of line 140, and no later line
    of the same identifier passes it. *)
Lemma loadCache_loop_last_kept (clock : nat → datetime)
    (entries : list (string * datetime)) :
  ∀ lines,
    Forall2 (λ item entry, parse_cache_line item = Ok entry) lines entries →
    ∃ cache,
      loadCache_loop clock 0 lines ∅ = Ok cache
      ∧ ∀ kitten ts,
          cache !! kitten = Some ts
          ↔ ∃ i, entries !! i = Some (kitten, ts)
                 ∧ under_3601_seconds clock i ts
                 ∧ ∀ j ts', (i < j)%nat →
                     entries !! j = Some (kitten, ts') →
                     ¬ under_3601_seconds clock j ts'.
Proof.
  induction entries as [|[k0 ts0] entries IH] using rev_ind; intros lines HF.
  - apply Forall2_nil_inv_r in HF as ->. exists ∅. split; [done|].
    intros kitten ts. rewrite lookup_empty. split; [done|].
    by intros (i & Hi & _).
  - apply Forall2_app_inv_r in HF as (lines1 & lines2 & HF1 & HF2 & ->).
    apply Forall2_cons_inv_r in HF2 as (item & rest & Hitem & Hrest & ->).
    apply Forall2_nil_inv_r in Hrest as ->.
    destruct (IH _ HF1) as (cache1 & Hrun1 & Hiff1).
    pose proof (Forall2_length _ _ _ HF1) as Hlen.
    rewrite loadCache_loop_snoc, Hrun1. cbn [exc_bind loadCache_loop].
    rewrite Hitem, Nat.add_0_l, Hlen.
    set (m := length entries).
    assert (fresh (clock m) ts0 = true ↔ under_3601_seconds clock m ts0)
      as Hfresh by apply fresh_iff.
    eexists. split; [done|]. intros kitten ts. split.
    + intros Hlook.
      assert ((kitten = k0 ∧ ts = ts0 ∧ under_3601_seconds clock m ts0)
              ∨ (cache1 !! kitten = Some ts
                 ∧ (kitten = k0 → ¬ under_3601_seconds clock m ts0)))
        as [(-> & -> & Hu)|[Hc Hne]].
      { destruct (fresh (clock m) ts0) eqn:Hf.
        - destruct (decide (kitten = k0)) as [->|Hne].
          + rewrite lookup_insert_eq in Hlook. injection Hlook as <-.
            left. repeat split; try done. by apply Hfresh.
          + rewrite lookup_insert_ne in Hlook by done. right. done.
        - right. split; [done|]. intros _ Hu%Hfresh. congruence. }
      * exists m. split; [by apply list_lookup_middle|]. split; [done|].
        intros j ts' Hj Hlk. apply lookup_lt_Some in Hlk.
        rewrite length_app in Hlk. cbn in Hlk. unfold m in Hj. lia.
      * apply Hiff1 in Hc as (i & Hi & Hu & Hlater).
        exists i. split; [by apply lookup_app_l_Some|]. split; [done|].
        intros j ts' Hj [Hlk|(-> & [= -> ->])]%lookup_snoc_Some.
        -- destruct Hlk as [_ Hlk]. by eapply Hlater.
        -- by apply Hne.
    + intros (i & [[Hlt Hi]|(-> & [= -> ->])]%lookup_snoc_Some & Hu & Hlater).
      * assert (cache1 !! kitten = Some ts) as Hc.
        { apply Hiff1. exists i. split; [done|]. split; [done|].
          intros j ts' Hj Hlk. apply (Hlater j ts' Hj).
          by apply lookup_app_l_Some. }
        destruct (fresh (clock m) ts0) eqn:Hf; [|done].
        destruct (decide (kitten = k0)) as [->|Hne];
          [|by rewrite lookup_insert_ne].
        exfalso. apply (Hlater m ts0); [done| |by apply Hfresh].
        by apply list_lookup_middle.
      * apply Hfresh in Hu. fold m. rewrite Hu. apply lookup_insert_eq.
Qed.

(** C4, as the code has it. For a cache file whose lines all parse,
    [loadCache] returns a cache, and the cache has the stamp [ts] under an
    identifier exactly when some entry of the file gives that identifier
    this stamp, is less than 3601 seconds old as its line is read (the
    elapsed time is cut to whole seconds before it is compared with 3600),
    and no later entry of the same identifier is. With one line per
    identifier, as [writeCache] writes them, every entry of the file is in
    the cache if it is less than 3601 seconds old and its identifier is
    not in the cache if it is not; and nothing else is in the cache. *)
Theorem C4_load_keeps_entries_under_3601_seconds (clock : nat → datetime)
    (content : string) (entries : list (string * datetime)) :
  Forall2 (λ item entry, parse_cache_line item = Ok entry)
          (readlines content) entries →
  ∃ cache,
    loadCache clock (Some content) = Ok cache
    ∧ (∀ kitten ts,
         cache !! kitten = Some ts
         ↔ ∃ i, entries !! i = Some (kitten, ts)
                ∧ under_3601_seconds clock i ts
                ∧ ∀ j ts', (i < j)%nat →
                    entries !! j = Some (kitten, ts') →
                    ¬ under_3601_seconds clock j ts')
    ∧ (NoDup entries.*1 →
       ∀ i kitten ts, entries !! i = Some (kitten, ts) →
         (under_3601_seconds clock i ts → cache !! kitten = Some ts)
         ∧ (¬ under_3601_seconds clock i ts → cache !! kitten = None))
    ∧ (∀ kitten, kitten ∉ entries.*1 → cache !! kitten = None).
Proof.
  intros Hparse.
  destruct (loadCache_loop_last_kept clock entries _ Hparse)
    as (cache & Hrun & Hiff).
  destruct (loadCache_loop_parsed clock _ _ Hparse 0%nat ∅)
    as (cache' & Hrun' & Hother & Hentry).
  rewrite Hrun in Hrun'. injection Hrun' as <-.
  exists cache. split; [done|]. split; [done|]. split.
  - intros Hnd i kitten ts Hi. specialize (Hentry Hnd i kitten ts Hi).
    cbn in Hentry. unfold under_3601_seconds. rewrite <- fresh_iff, Hentry.
    destruct (fresh (clock i) ts); rewrite ?lookup_empty; split; done.
  - intros kitten Hk. by rewrite (Hother _ Hk), lookup_empty.
Qed.

Lemma C4_load_keeps_entries_under_3601_seconds_witness :
  let clock := λ _ : nat, an_hour_and_a_half_second_later in
  let entries := [("a", midnight); ("b", the_day_before)] in
  ∃ cache,
    loadCache clock (Some two_entry_file) = Ok cache
    ∧ (∀ kitten ts,
         cache !! kitten = Some ts
         ↔ ∃ i, entries !! i = Some (kitten, ts)
                ∧ under_3601_seconds clock i ts
                ∧ ∀ j ts', (i < j)%nat →
                    entries !! j = Some (kitten, ts') →
                    ¬ under_3601_seconds clock j ts')
    ∧ (NoDup entries.*1 →
       ∀ i kitten ts, entries !! i = Some (kitten, ts) →
         (under_3601_seconds clock i ts → cache !! kitten = Some ts)
         ∧ (¬ under_3601_seconds clock i ts → cache !! kitten = None))
    ∧ (∀ kitten, kitten ∉ entries.*1 → cache !! kitten = None).
Proof.
  apply (C4_load_keeps_entries_under_3601_seconds
           (λ _, an_hour_and_a_half_second_later) two_entry_file
           [("a", midnight); ("b", the_day_before)]).
  repeat constructor.
Defined.
